(** * django-admin-drf: permission resolution, field diffing, audited CRUD
      and the handler registry of [api/admin.py], embedded in Rocq.

    Python dictionaries are stdpp [gmap]s, exceptions are the [Raise] branch
    of [result], and code that mutates the database, the audit log or the
    registry threads an explicit state. *)

From Stdlib Require Import ZArith.
From stdpp Require Import gmap strings list fin_maps.

Local Open Scope Z_scope.

(** ** Exceptions and fallible results *)

(** The exception classes of [api/admin.py] (lines 14-23) together with the
    host exceptions the modelled code can raise. *)
Inductive exn : Type :=
  | AlreadyRegistered (msg : string)
  | NotRegistered (msg : string)
  | ImproperlyConfigured (msg : string)
  | KeyError (key : string)
  | AttributeError (name : string)
  | ValidationError
  | Http404
  | PermissionDenied
  | StoreError.

Inductive result (A : Type) : Type :=
  | Ok (a : A)
  | Raise (e : exn).
Arguments Ok {A} a.
Arguments Raise {A} e.

Definition result_bind {A B} (r : result A) (k : A → result B) : result B :=
  match r with
  | Ok a => k a
  | Raise e => Raise e
  end.

Notation "x ←ᵣ r ; k" := (result_bind r (λ x, k))
  (at level 20, r at level 100, k at level 200, right associativity,
   format "x  ←ᵣ  r ;  '/' k").

(** ** Records, callers and requests *)

(** [model._meta]: the part of a model's options the code reads. *)
Record Options : Type := {
  app_label : string;
  model_name : string;
  verbose_name : string;
  verbose_name_plural : string;
  abstract : bool;
}.

(** A fetched or freshly saved record: primary key, [str(instance)] and the
    dictionary [model_to_dict] yields for it. *)
Record Instance (V : Type) : Type := {
  pk : Z;
  str : string;
  field_values : gmap string V;
}.
Arguments pk {V} _.
Arguments str {V} _.
Arguments field_values {V} _.

(** [request.user]: the identity layer.  [has_perm] receives whatever
    non-callable, non-boolean object the permission map holds; [None] stands
    for Python's [None]. *)
Record User : Type := {
  user_pk : Z;
  has_perm : option string → bool;
}.

Record Request (P : Type) : Type := {
  method : string;
  user : User;
  data : P;
}.
Arguments method {P} _.
Arguments user {P} _.
Arguments data {P} _.

(** ** Permission resolver: [AuthPermissionViewSetMixin] *)

Section permission.
Context {V P : Type}.

(** A permission specification as [_has_perm_action] dispatches on it:
    a callable, a [bool], or anything else (a code string, or the [None]
    that [action(permission=None)] leaves on a method).  The callable's
    first argument, the handler itself, is closed over. *)
Inductive Perm : Type :=
  | PermCallable (f : string → Request P → option (Instance V) → bool)
  | PermBool (b : bool)
  | PermCode (code : string)
  | PermNone.

(** What [getattr(self, name)] returns: only whether the attribute carries
    a [permission] attribute, and which, is observed. *)
Record Attr : Type := {
  permission : option Perm;
}.

(** A handler instance: the class attributes the resolver reads and the
    table of its attributes by name. *)
Record View : Type := {
  NOT_FOUND_PERMISSION_DEFAULT : bool;
  permission_map : gmap string Perm;
  _options : Options;
  view_attrs : gmap string Attr;
}.

(** [django.contrib.auth.get_permission_codename]: ["%s_%s" % (action,
    opts.model_name)]. *)
Definition get_permission_codename (action : string) (opts : Options) : string :=
  action +:+ "_" +:+ model_name opts.

Definition _make_permission_key (self : View) (action : string) : string :=
  let code_name := get_permission_codename action (_options self) in
  app_label (_options self) +:+ "." +:+ code_name.

(** [dict.update]: the entries of [other] win. *)
Definition dict_update {A} (d other : gmap string A) : gmap string A := other ∪ d.

Definition get_permission_map (self : View) : gmap string Perm :=
  let permission_map0 : gmap string Perm :=
    <["delete" := PermCode (_make_permission_key self "delete")]>
    (<["partial_update" := PermCode (_make_permission_key self "change")]>
    (<["update" := PermCode (_make_permission_key self "change")]>
    (<["create" := PermCode (_make_permission_key self "add")]>
    (<["retrieve" := PermCode (_make_permission_key self "view")]>
    (<["list" := PermCode (_make_permission_key self "view")]> ∅))))) in
  dict_update permission_map0 (permission_map self).

(** [getattr(self, name)] *)
Definition getattr (self : View) (name : string) : result Attr :=
  match view_attrs self !! name with
  | Some a => Ok a
  | None => Raise (AttributeError name)
  end.

(** Lines 57-59: the map [_has_perm_action] looks [action] up in. *)
Definition effective_permission_map (self : View) (action : string)
  : result (gmap string Perm) :=
  let perm_map := get_permission_map self in
  attr ←ᵣ getattr self action;
  match permission attr with
  | Some p => Ok (<[action := p]> perm_map)
  | None => Ok perm_map
  end.

(** [action] is [view.action]: [None] when the router set none, or a
    string; [not action] holds of [None] and of the empty string. *)
Definition _has_perm_action (self : View) (action : option string)
    (request : Request P) (obj : option (Instance V)) : result bool :=
  if bool_decide (method request = "OPTIONS")
     || bool_decide (action = Some "metadata")
  then Ok true
  else
    match action with
    | None => Ok false
    | Some a =>
        if bool_decide (a = "") then Ok false
        else
          perm_map ←ᵣ effective_permission_map self a;
          match perm_map !! a with
          | None => Ok (NOT_FOUND_PERMISSION_DEFAULT self)
          | Some perm_code =>
              match perm_code with
              | PermCallable f => Ok (f a request obj)
              | PermBool b => Ok b
              | PermCode code => Ok (has_perm (user request) (Some code))
              | PermNone => Ok (has_perm (user request) None)
              end
          end
    end.

(** [HasPermissionAccess]; the assertion that the view has
    [get_permission_map] holds of every [View]. *)
Definition has_permission (request : Request P) (view : View)
    (view_action : option string) : result bool :=
  _has_perm_action view view_action request None.

Definition has_object_permission (request : Request P) (view : View)
    (view_action : option string) (obj : Instance V) : result bool :=
  _has_perm_action view view_action request (Some obj).

End permission.
Arguments Perm : clear implicits.
Arguments Attr : clear implicits.
Arguments View : clear implicits.

(** ** Diff helper: [ModelDiffHelper] *)

Section diff.
Context {V : Type}.
(** [v != w] on field values: the host's native comparison. *)
Context (py_ne : V → V → bool).

Record ModelDiffHelper : Type := {
  __initial : gmap string V;
  _new_object : option (gmap string V);
}.

(** [model_to_dict(model, fields=[every field name])] *)
Definition _dict (model : Instance V) : gmap string V := field_values model.

Definition __init__ (initial : Instance V) : ModelDiffHelper :=
  {| __initial := _dict initial; _new_object := None |}.

Definition set_changed_model (self : ModelDiffHelper) (new_object : Instance V)
  : ModelDiffHelper :=
  let data := _dict new_object in
  let initial' :=
    match _new_object self with
    | Some _ => data
    | None => __initial self
    end in
  {| __initial := initial'; _new_object := Some data |}.

(** The comprehension [[(k, (v, d2[k])) for k, v in d1.items() if v != d2[k]]]
    over the items of [d1]; [d2[k]] raises [KeyError] on a missing key. *)
Fixpoint diff_items (d2 : gmap string V) (items : list (string * V))
  : result (list (string * (V * V))) :=
  match items with
  | [] => Ok []
  | (k, v) :: rest =>
      match d2 !! k with
      | None => Raise (KeyError k)
      | Some v2 =>
          diffs ←ᵣ diff_items d2 rest;
          Ok (if py_ne v v2 then (k, (v, v2)) :: diffs else diffs)
      end
  end.

Definition diff (self : ModelDiffHelper) : result (gmap string (V * V)) :=
  match _new_object self with
  | None => Ok ∅
  | Some d2 =>
      if bool_decide (d2 = ∅) then Ok ∅
      else
        let d1 := __initial self in
        diffs ←ᵣ diff_items d2 (map_to_list d1);
        Ok (list_to_map diffs)
  end.

Definition has_changed (self : ModelDiffHelper) : result bool :=
  d ←ᵣ diff self; Ok (negb (bool_decide (d = ∅))).

(** The names come in the map's key order here, in insertion order in
    Python; which names they are does not depend on the order. *)
Definition changed_fields (self : ModelDiffHelper) : result (list string) :=
  d ←ᵣ diff self; Ok ((map_to_list d).*1).

Definition get_field_diff (self : ModelDiffHelper) (field_name : string)
  : result (option (V * V)) :=
  d ←ᵣ diff self; Ok (d !! field_name).

(** The field-by-field comparison of two snapshots in the words of the
    specification: the fields present in both with unequal values, each
    with its old and new value. *)
Definition snapshot_diff (s1 s2 : gmap string V) : gmap string (V * V) :=
  merge (λ o1 o2,
           match o1, o2 with
           | Some v1, Some v2 => if py_ne v1 v2 then Some (v1, v2) else None
           | _, _ => None
           end) s1 s2.

End diff.
Arguments ModelDiffHelper : clear implicits.

(** ** CRUD handler: [RestFulAdminMVS] *)

(** [django.contrib.admin.models]: the action flags of a [LogEntry]. *)
Inductive ActionFlag : Type := ADDITION | CHANGE | DELETION.

(** The one-element message lists the handlers build:
    [[{"added": {"name": .., "object": ..}}]] and its siblings. *)
Inductive Message : Type :=
  | MsgAdded (name object : string)
  | MsgChanged (name object : string) (fields : list string)
  | MsgDeleted (name object : string).

(** What a handler passes as [object_repr]: [str(object)], or, in [destroy],
    the message list itself. *)
Inductive Repr : Type :=
  | ReprStr (s : string)
  | ReprMessage (m : Message).

Record LogEntry : Type := {
  user_id : Z;
  content_type_id : Z;
  object_id : Z;
  object_repr : Repr;
  action_flag : ActionFlag;
  change_message : option Message;
}.

Section crud.
Context {V P : Type}.
(** The schema layer: [serializer.is_valid] yields the validated data or
    fails.  The persistence layer: [serializer.save] on a new record yields
    the stored instance, key included, or fails. *)
Context (is_valid : P → option (gmap string V)).
Context (orm_create : gmap Z (Instance V) → gmap string V → result (Instance V)).

(** The effects a request has on the outside world, in the order they
    happen. *)
Inductive Event : Type :=
  | Saved (instance : Instance V)
  | Logged (entry : LogEntry)
  | Removed (key : Z).

Record World : Type := {
  table : gmap Z (Instance V);
  admin_log : list LogEntry;
  trace : list Event;
}.

Record Response : Type := {
  status : Z;
  body : option (Instance V);
}.

(** Handler code runs against the world and either returns or raises;
    nothing wraps it in a transaction, so effects made before an exception
    stay. *)
Definition M (A : Type) : Type := World → result A * World.

Definition ret {A} (a : A) : M A := λ w, (Ok a, w).
Definition raise {A} (e : exn) : M A := λ w, (Raise e, w).
Definition bind {A B} (m : M A) (k : A → M B) : M B :=
  λ w, match m w with
       | (Ok a, w') => k a w'
       | (Raise e, w') => (Raise e, w')
       end.

Notation "'let!' x ':=' m 'in' k" := (bind m (λ x, k))
  (at level 10, x name, m at level 100, k at level 200).

(** A handler instance serving one request: the resolver's view, the
    content type of its model and [self.action] as the router set it. *)
Record Handler : Type := {
  view : View V P;
  content_type_pk : Z;
  action : option string;
}.

(** [LogEntry.objects.log_action]: one row appended to the audit log. *)
Definition log_action (entry : LogEntry) : M unit :=
  λ w, (Ok (), {| table := table w;
                  admin_log := admin_log w ++ [entry];
                  trace := trace w ++ [Logged entry] |}).

Definition log_addition (self : Handler) (request : Request P)
    (object : Instance V) (message : Message) : M unit :=
  log_action {| user_id := user_pk (user request);
                content_type_id := content_type_pk self;
                object_id := pk object;
                object_repr := ReprStr (str object);
                action_flag := ADDITION;
                change_message := Some message |}.

Definition log_deletion (self : Handler) (request : Request P)
    (object : Instance V) (object_repr : Repr) : M unit :=
  log_action {| user_id := user_pk (user request);
                content_type_id := content_type_pk self;
                object_id := pk object;
                object_repr := object_repr;
                action_flag := DELETION;
                change_message := None |}.

(** [perform_create]: [serializer.save()]. *)
Definition perform_create (validated : gmap string V) : M (Instance V) :=
  λ w, match orm_create (table w) validated with
       | Ok instance =>
           (Ok instance, {| table := <[pk instance := instance]> (table w);
                            admin_log := admin_log w;
                            trace := trace w ++ [Saved instance] |})
       | Raise e => (Raise e, w)
       end.

(** [perform_destroy]: [instance.delete()]. *)
Definition perform_destroy (instance : Instance V) : M unit :=
  λ w, (Ok (), {| table := delete (pk instance) (table w);
                  admin_log := admin_log w;
                  trace := trace w ++ [Removed (pk instance)] |}).

(** [GenericAPIView.get_object]: fetch by key or raise [Http404], then
    check the object-level permission. *)
Definition get_object (self : Handler) (request : Request P) (key : Z)
  : M (Instance V) :=
  λ w, match table w !! key with
       | None => (Raise Http404, w)
       | Some instance =>
           match has_object_permission request (view self) (action self) instance with
           | Ok true => (Ok instance, w)
           | Ok false => (Raise PermissionDenied, w)
           | Raise e => (Raise e, w)
           end
       end.

Definition create (self : Handler) (request : Request P) : M Response :=
  match is_valid (data request) with
  | None => raise ValidationError
  | Some validated =>
      let! instance := perform_create validated in
      let! _ := log_addition self request instance
                  (MsgAdded (verbose_name (_options (view self))) (str instance)) in
      ret {| status := 201; body := Some instance |}
  end.

Definition destroy (self : Handler) (request : Request P) (key : Z) : M Response :=
  let! instance := get_object self request key in
  let! _ := log_deletion self request instance
              (ReprMessage (MsgDeleted (verbose_name (_options (view self))) (str instance))) in
  let! _ := perform_destroy instance in
  ret {| status := 204; body := None |}.

(** [APIView.handle_exception]: the framework turns its own exceptions
    into responses and lets every other one propagate. *)
Definition handle_exception (r : result Response) : result Response :=
  match r with
  | Raise ValidationError => Ok {| status := 400; body := None |}
  | Raise PermissionDenied => Ok {| status := 403; body := None |}
  | Raise Http404 => Ok {| status := 404; body := None |}
  | _ => r
  end.

(** [APIView.dispatch]: set [self.action], check the collection-level
    permission, then run the handler method. *)
Definition dispatch (self : Handler) (act : option string)
    (handler : Handler → Request P → M Response) (request : Request P)
  : World → result Response * World :=
  λ w,
    let self := {| view := view self;
                   content_type_pk := content_type_pk self;
                   action := act |} in
    match has_permission request (view self) (action self) with
    | Ok true =>
        let '(r, w') := handler self request w in (handle_exception r, w')
    | Ok false => (handle_exception (Raise PermissionDenied), w)
    | Raise e => (handle_exception (Raise e), w)
    end.

End crud.
Arguments Event : clear implicits.
Arguments World : clear implicits.
Arguments Response : clear implicits.
Arguments Handler : clear implicits.

(** ** Registry: [RestFulAdminSite] *)

(** A model class: [model.__name__] and [model._meta].  The registry is
    keyed by the class; an application has one model class per name, so the
    record stands for the class object. *)
Record Model : Type := {
  __name__ : string;
  _meta : Options;
}.

Global Instance Options_eq_dec : EqDecision Options.
Proof. solve_decision. Defined.

Global Instance Model_eq_dec : EqDecision Model.
Proof. solve_decision. Defined.

Global Instance Options_countable : Countable Options.
Proof.
  refine (inj_countable'
    (λ o, (app_label o, model_name o, verbose_name o, verbose_name_plural o, abstract o))
    (λ t, let '(a, m, v, vp, ab) := t in
          {| app_label := a; model_name := m; verbose_name := v;
             verbose_name_plural := vp; abstract := ab |}) _).
  by intros [].
Defined.

Global Instance Model_countable : Countable Model.
Proof.
  refine (inj_countable' (λ m, (__name__ m, _meta m))
    (λ t, {| __name__ := t.1; _meta := t.2 |}) _).
  by intros [].
Defined.

(** The values of the keyword options of [register]: the documentation
    string it adds, or any other object. *)
Inductive PyObj : Type :=
  | PyStr (s : string)
  | PyOther (id : positive).

(** A handler class: one written by hand, or [type(name, (base,), namespace)].
    [type] copies the namespace it is given. *)
Inductive ViewClass : Type :=
  | Class (name : string)
  | type (name : string) (base : ViewClass) (namespace : gmap string PyObj).

Definition RestFulAdminMVS : ViewClass := Class "RestFulAdminMVS".

Record RestFulAdminSite : Type := {
  _registry : gmap Model ViewClass;
  _url_patterns : list string;
  default_view_class : ViewClass;
}.

Definition site__init__ (view_class : ViewClass) : RestFulAdminSite :=
  {| _registry := ∅; _url_patterns := []; default_view_class := view_class |}.

(** The argument of [register] and [unregister]: a model class, which the
    [isinstance] test wraps in a list, or an iterable of them. *)
Inductive ModelOrIterable : Type :=
  | OneModel (model : Model)
  | Iterable (models : list Model).

Definition as_iterable (model_or_iterable : ModelOrIterable) : list Model :=
  match model_or_iterable with
  | OneModel model => [model]
  | Iterable models => models
  end.

Definition nl : string := String (Ascii.ascii_of_nat 10) EmptyString.

Definition generate_docs (model : Model) : string :=
  let model_ := model_name (_meta model) in
  let verbose_name_ := verbose_name (_meta model) in
  let verbose_name_plural_ := verbose_name_plural (_meta model) in
  nl +:+
  "List all " +:+ verbose_name_plural_ +:+ ", create new " +:+ verbose_name_ +:+ nl +:+
  "> `[GET]` `" +:+ model_ +:+ "/`<br/>" +:+ nl +:+
  "> `[POST]` `" +:+ model_ +:+ "/`" +:+ nl +:+
  nl +:+
  "Operate on specific " +:+ verbose_name_ +:+ " selected by `<pk>` field value:" +:+ nl +:+
  "> `[GET]` `" +:+ model_ +:+ "/<pk>/` => Get " +:+ verbose_name_ +:+ "<br/>" +:+ nl +:+
  "> `[PATCH | PUT]` `" +:+ model_ +:+ "/<pk>/` => Update " +:+ verbose_name_ +:+ "<br/>" +:+ nl +:+
  "> `[DELETE]` `" +:+ model_ +:+ "/<pk>/` => Delete " +:+ verbose_name_ +:+ nl +:+
  nl +:+
  "List " +:+ verbose_name_ +:+ " fields for form creation, view supported operations for "
    +:+ verbose_name_plural_ +:+ nl +:+
  "> `[OPTIONS]` `" +:+ model_ +:+ "/`<br/>" +:+ nl +:+
  "> `[OPTIONS]` `" +:+ model_ +:+ "/<pk>/`" +:+ nl +:+
  "            ".

(** The variables the loop of [register] reads and rebinds: the registry it
    mutates in place, the one [options] dictionary of the call, and
    [view_class]. *)
Record RegisterLocals : Type := {
  registry : gmap Model ViewClass;
  options : gmap string PyObj;
  view_class : ViewClass;
}.

Fixpoint register_loop (models : list Model) (l : RegisterLocals)
  : result unit * RegisterLocals :=
  match models with
  | [] => (Ok (), l)
  | model :: rest =>
      if abstract (_meta model) then
        (Raise (ImproperlyConfigured
                  ("The model " +:+ __name__ model +:+
                   " is abstract, so it cannot be registered with admin.")), l)
      else if bool_decide (is_Some (registry l !! model)) then
        (Raise (AlreadyRegistered
                  ("The model " +:+ __name__ model +:+ " is already registered")), l)
      else
        let options' := <["__doc__" := PyStr (generate_docs model)]> (options l) in
        let view_class' := type (__name__ model +:+ "Admin") (view_class l) options' in
        register_loop rest {| registry := <[model := view_class']> (registry l);
                              options := options';
                              view_class := view_class' |}
  end.

(** The locals of a [register] call when its loop starts. *)
Definition register_locals (self : RestFulAdminSite)
    (view_class : option ViewClass) (options : gmap string PyObj) : RegisterLocals :=
  {| registry := _registry self;
     options := options;
     view_class := default (default_view_class self) view_class |}.

Definition with_registry (self : RestFulAdminSite) (r : gmap Model ViewClass)
  : RestFulAdminSite :=
  {| _registry := r;
     _url_patterns := _url_patterns self;
     default_view_class := default_view_class self |}.

Definition register (self : RestFulAdminSite) (model_or_iterable : ModelOrIterable)
    (view_class : option ViewClass) (options : gmap string PyObj)
  : result unit * RestFulAdminSite :=
  let '(r, l) := register_loop (as_iterable model_or_iterable)
                   (register_locals self view_class options) in
  (r, with_registry self (registry l)).

Fixpoint unregister_loop (models : list Model) (registry : gmap Model ViewClass)
  : result unit * gmap Model ViewClass :=
  match models with
  | [] => (Ok (), registry)
  | model :: rest =>
      if bool_decide (is_Some (registry !! model)) then
        unregister_loop rest (delete model registry)
      else
        (Raise (NotRegistered ("The model " +:+ __name__ model +:+ " is not registered")),
         registry)
  end.

Definition unregister (self : RestFulAdminSite) (model_or_iterable : ModelOrIterable)
  : result unit * RestFulAdminSite :=
  let '(r, registry') := unregister_loop (as_iterable model_or_iterable) (_registry self) in
  (r, with_registry self registry').

Definition is_registered (self : RestFulAdminSite) (model : Model) : bool :=
  bool_decide (is_Some (_registry self !! model)).

(** ** Derived notions used in the statements *)

(** [a] is in none of the sources the effective map is merged from: not in
    the defaults or the handler's override, and the attribute it names, if
    any, carries no [permission] annotation. *)
Definition not_in_effective_map {V P} (self : View V P) (a : string) : Prop :=
  get_permission_map self !! a = None ∧
  ∀ attr, view_attrs self !! a = Some attr → permission attr = None.

(** The routes of a model: POST on the collection runs [create], DELETE on
    a record runs [destroy]. *)
Definition post_collection {V P} (is_valid : P → option (gmap string V))
    (orm_create : gmap Z (Instance V) → gmap string V → result (Instance V))
    (self : Handler V P) (request : Request P)
  : World V → result (Response V) * World V :=
  dispatch self (Some "create") (create is_valid orm_create) request.

Definition delete_record {V P} (self : Handler V P) (request : Request P) (key : Z)
  : World V → result (Response V) * World V :=
  dispatch self (Some "destroy") (λ self request, destroy self request key) request.

(** Only concrete models get into the registry. *)
Definition registry_wf (self : RestFulAdminSite) : Prop :=
  ∀ model cls, _registry self !! model = Some cls → abstract (_meta model) = false.

(** The sites a program can build: a fresh one, and what [register] and
    [unregister] leave behind, whether they return or raise. *)
Inductive reachable : RestFulAdminSite → Prop :=
  | reachable_init (view_class : ViewClass) :
      reachable (site__init__ view_class)
  | reachable_register (self : RestFulAdminSite) (mi : ModelOrIterable)
      (view_class : option ViewClass) (opts : gmap string PyObj) :
      reachable self → reachable (register self mi view_class opts).2
  | reachable_unregister (self : RestFulAdminSite) (mi : ModelOrIterable) :
      reachable self → reachable (unregister self mi).2.

Definition already_registered_error (model : Model) : exn :=
  AlreadyRegistered ("The model " +:+ __name__ model +:+ " is already registered").

Definition not_registered_error (model : Model) : exn :=
  NotRegistered ("The model " +:+ __name__ model +:+ " is not registered").

Definition abstract_model_error (model : Model) : exn :=
  ImproperlyConfigured
    ("The model " +:+ __name__ model +:+
     " is abstract, so it cannot be registered with admin.").

(** The documentation entry [register] writes into [options] for a model,
    and the class it synthesizes from a base. *)
Definition with_doc (options : gmap string PyObj) (model : Model) : gmap string PyObj :=
  <["__doc__" := PyStr (generate_docs model)]> options.

Definition admin_class (model : Model) (base : ViewClass)
    (options : gmap string PyObj) : ViewClass :=
  type (__name__ model +:+ "Admin") base (with_doc options model).

(** ** A concrete handler, caller and requests

    The demo application registers [TestModel] with the default handler
    class; field values and payloads are integers here. *)

Definition TestModel_meta : Options :=
  {| app_label := "models"; model_name := "testmodel";
     verbose_name := "test model"; verbose_name_plural := "test models";
     abstract := false |}.

Definition plain_attr : Attr Z (gmap string Z) := {| permission := None |}.

(** The methods [RestFulAdminMVS] defines, none of them annotated. *)
Definition RestFulAdminMVS_attrs : gmap string (Attr Z (gmap string Z)) :=
  list_to_map ((λ name, (name, plain_attr)) <$>
    ["list"; "create"; "retrieve"; "update"; "partial_update"; "destroy";
     "get_doc"; "get_urls"; "get_permission_map"]).

Definition TestModel_view (not_found_default : bool) : View Z (gmap string Z) :=
  {| NOT_FOUND_PERMISSION_DEFAULT := not_found_default;
     permission_map := ∅;
     _options := TestModel_meta;
     view_attrs := RestFulAdminMVS_attrs |}.

(** A caller holding exactly the given permission codes. *)
Definition user_with (key : Z) (codes : list string) : User :=
  {| user_pk := key;
     has_perm := λ code, match code with
                         | Some c => bool_decide (c ∈ codes)
                         | None => false
                         end |}.

Definition request_of (verb : string) (u : User) (payload : gmap string Z)
  : Request (gmap string Z) :=
  {| method := verb; user := u; data := payload |}.

(** Integer field values and their [!=]. *)
Definition Z_ne (x y : Z) : bool := negb (x =? y).

Definition record_of (key : Z) (repr : string) (fields : list (string * Z))
  : Instance Z :=
  {| pk := key; str := repr; field_values := list_to_map fields |}.

(** The demo schema accepts a payload that has [field]; the demo store
    numbers records in sequence. *)
Definition demo_is_valid (payload : gmap string Z) : option (gmap string Z) :=
  if bool_decide (is_Some (payload !! "field")) then Some payload else None.

Definition demo_orm_create (table : gmap Z (Instance Z)) (validated : gmap string Z)
  : result (Instance Z) :=
  Ok {| pk := Z.of_nat (size table) + 1; str := "TestModel object";
        field_values := validated |}.

Definition TestModel_handler (v : View Z (gmap string Z)) (act : option string)
  : Handler Z (gmap string Z) :=
  {| view := v; content_type_pk := 9; action := act |}.

(** A handler whose override maps [destroy] to the delete permission. *)
Definition TestModel_guarded_view : View Z (gmap string Z) :=
  {| NOT_FOUND_PERMISSION_DEFAULT := false;
     permission_map := {["destroy" := PermCode "models.delete_testmodel"]};
     _options := TestModel_meta;
     view_attrs := RestFulAdminMVS_attrs |}.

Definition demo_world : World Z :=
  {| table := {[4 := record_of 4 "TestModel object (4)" [("field", 10)]]};
     admin_log := [];
     trace := [] |}.

Definition TestModel : Model := {| __name__ := "TestModel"; _meta := TestModel_meta |}.

Definition User_model : Model :=
  {| __name__ := "User";
     _meta := {| app_label := "auth"; model_name := "user"; verbose_name := "user";
                 verbose_name_plural := "users"; abstract := false |} |}.

Definition AbstractBase : Model :=
  {| __name__ := "AbstractBase";
     _meta := {| app_label := "models"; model_name := "abstractbase";
                 verbose_name := "abstract base";
                 verbose_name_plural := "abstract bases"; abstract := true |} |}.

(** The module-level [site]. *)
Definition site : RestFulAdminSite := site__init__ RestFulAdminMVS.

(** ** The [action] decorator and the remaining record operations *)

Module decorators.
(** [action(permission=None, ...)]: the wrapped method always gets a
    [permission] attribute, [None] when no permission is passed. *)
Definition action {V P} (permission : Perm V P) (func : Attr V P) : Attr V P :=
  {| permission := Some permission |}.
End decorators.

Section crud_update.
Context {V P : Type}.
Context (py_ne : V → V → bool).
(** The schema layer on an existing record, [partial] or not; the
    persistence layer writing the validated data onto the record. *)
Context (is_valid_update : bool → Instance V → P → option (gmap string V)).
Context (orm_update : Instance V → gmap string V → result (Instance V)).

Notation "'let!' x ':=' m 'in' k" := (bind m (λ x, k))
  (at level 10, x name, m at level 100, k at level 200).

Definition lift_result {A} (r : result A) : M (V:=V) A := λ w, (r, w).

Definition log_change (self : Handler V P) (request : Request P)
    (object : Instance V) (message : Message) : M (V:=V) unit :=
  log_action {| user_id := user_pk (user request);
                content_type_id := content_type_pk self;
                object_id := pk object;
                object_repr := ReprStr (str object);
                action_flag := CHANGE;
                change_message := Some message |}.

(** [perform_update]: [serializer.save()] on the fetched record. *)
Definition perform_update (instance : Instance V) (validated : gmap string V)
  : M (Instance V) :=
  λ w, match orm_update instance validated with
       | Ok instance' =>
           (Ok instance', {| table := <[pk instance' := instance']> (table w);
                             admin_log := admin_log w;
                             trace := trace w ++ [Saved instance'] |})
       | Raise e => (Raise e, w)
       end.

Definition retrieve (self : Handler V P) (request : Request P) (key : Z)
  : M (Response V) :=
  let! instance := get_object self request key in
  ret {| status := 200; body := Some instance |}.

(** The [_prefetched_objects_cache] attribute of the in-memory record:
    absent, or a dictionary; a non-empty one is replaced by [{}]. *)
Definition invalidate_prefetch (cache : option (gmap string (list Z)))
  : option (gmap string (list Z)) :=
  match cache with
  | None => None
  | Some c => if bool_decide (c = ∅) then Some c else Some ∅
  end.

(** [update] returns its response together with the cache attribute it
    leaves on the in-memory record. *)
Definition update (self : Handler V P) (request : Request P) (key : Z)
    (partial : bool) (cache : option (gmap string (list Z)))
  : M (Response V * option (gmap string (list Z))) :=
  let! instance := get_object self request key in
  match is_valid_update partial instance (data request) with
  | None => raise ValidationError
  | Some validated =>
      let helper := __init__ instance in
      let! instance' := perform_update instance validated in
      let! fields :=
        lift_result (changed_fields py_ne (set_changed_model helper instance')) in
      let! _ := log_change self request instance'
                  (MsgChanged (verbose_name (_options (view self))) (str instance')
                     fields) in
      ret ({| status := 200; body := Some instance' |}, invalidate_prefetch cache)
  end.

(** [UpdateModelMixin.partial_update] sets [partial] and calls [update]. *)
Definition partial_update (self : Handler V P) (request : Request P) (key : Z)
    (cache : option (gmap string (list Z)))
  : M (Response V * option (gmap string (list Z))) :=
  update self request key true cache.

End crud_update.

(** GET on a record runs [retrieve]. *)
Definition get_record {V P} (self : Handler V P) (request : Request P) (key : Z)
  : World V → result (Response V) * World V :=
  dispatch self (Some "retrieve") (λ self request, retrieve self request key) request.

(** Every stored record sits under its own key. *)
Definition table_wf {V} (w : World V) : Prop :=
  ∀ key instance, table w !! key = Some instance → pk instance = key.

(** What lines 64-70 answer for a permission specification found in the
    map. *)
Definition perm_verdict {V P} (perm_code : Perm V P) (a : string)
    (request : Request P) (obj : option (Instance V)) : bool :=
  match perm_code with
  | PermCallable f => f a request obj
  | PermBool b => b
  | PermCode code => has_perm (user request) (Some code)
  | PermNone => has_perm (user request) None
  end.

(** The verb of the model permission the default map gives each action. *)
Definition default_verbs : list (string * string) :=
  [("list", "view"); ("retrieve", "view"); ("create", "add");
   ("update", "change"); ("partial_update", "change"); ("delete", "delete")].

(** A caller-aware permission: only the owner of the record, whose key is
    the caller's, passes. *)
Definition owner_only : Perm Z (gmap string Z) :=
  PermCallable (λ _ request obj,
    match obj with
    | Some instance => bool_decide (pk instance = user_pk (user request))
    | None => true
    end).

(** ** The registry with class objects: [get_urls]

    [get_urls] assigns attributes to the registered handler classes, and a
    class inherits the attributes of its base: here classes are objects in a
    store, named by their position in it, and the registry is an ordered
    dictionary as Python's is. *)

Module Objects.

(** The value of a class attribute: [None], an object given as an option of
    [register], the queryset [model.objects.all()], or the serializer class
    [type(name, (ModelSerializer,), {"Meta": ...})] for a model. *)
Inductive AttrVal : Type :=
  | PyNone
  | Obj (o : PyObj)
  | AllObjects (model : Model)
  | ModelSerializerClass (name : string) (model : Model).

(** A class object: its name, its base when it was made by [type] (a class
    written by hand carries all it inherits in its own dictionary), and its
    dictionary. *)
Record ClassObj : Type := {
  cls_name : string;
  cls_base : option nat;
  cls_dict : gmap string AttrVal;
}.

(** The store lists the classes newest first; a class is named by the
    number of classes made before it, so a base is always older. *)
Fixpoint class_at (store : list ClassObj) (cls : nat) : option ClassObj :=
  match store with
  | [] => None
  | c :: older =>
      if bool_decide (cls = length older) then Some c else class_at older cls
  end.

(** Attribute lookup along the bases. *)
Fixpoint mro_lookup (store : list ClassObj) (cls : nat) (name : string)
  : option AttrVal :=
  match store with
  | [] => None
  | c :: older =>
      if bool_decide (cls = length older) then
        match cls_dict c !! name with
        | Some v => Some v
        | None =>
            match cls_base c with
            | Some base => mro_lookup older base name
            | None => None
            end
        end
      else mro_lookup older cls name
  end.

(** [getattr(cls, name)] and [cls.name = v] on a class. *)
Definition getattr (store : list ClassObj) (cls : nat) (name : string)
  : result AttrVal :=
  match mro_lookup store cls name with
  | Some v => Ok v
  | None => Raise (AttributeError name)
  end.

Fixpoint setattr (store : list ClassObj) (cls : nat) (name : string) (v : AttrVal)
  : list ClassObj :=
  match store with
  | [] => []
  | c :: older =>
      if bool_decide (cls = length older) then
        {| cls_name := cls_name c; cls_base := cls_base c;
           cls_dict := <[name := v]> (cls_dict c) |} :: older
      else c :: setattr older cls name v
  end.

(** An insertion-ordered dictionary keyed by model classes. *)
Fixpoint od_get {A} (d : list (Model * A)) (k : Model) : option A :=
  match d with
  | [] => None
  | (k', v) :: rest => if decide (k' = k) then Some v else od_get rest k
  end.

Fixpoint od_set {A} (d : list (Model * A)) (k : Model) (v : A) : list (Model * A) :=
  match d with
  | [] => [(k, v)]
  | (k', v') :: rest =>
      if decide (k' = k) then (k, v) :: rest else (k', v') :: od_set rest k v
  end.

Fixpoint od_del {A} (d : list (Model * A)) (k : Model) : list (Model * A) :=
  match d with
  | [] => []
  | (k', v') :: rest => if decide (k' = k) then rest else (k', v') :: od_del rest k
  end.

Record RestFulAdminSite : Type := {
  classes : list ClassObj;
  _registry : list (Model * nat);
  _url_patterns : list string;
  default_view_class : nat;
}.

Record RegisterLocals : Type := {
  store : list ClassObj;
  registry : list (Model * nat);
  options : gmap string PyObj;
  view_class : nat;
}.

Fixpoint register_loop (models : list Model) (l : RegisterLocals)
  : result unit * RegisterLocals :=
  match models with
  | [] => (Ok (), l)
  | model :: rest =>
      if abstract (_meta model) then
        (Raise (ImproperlyConfigured
                  ("The model " +:+ __name__ model +:+
                   " is abstract, so it cannot be registered with admin.")), l)
      else if bool_decide (is_Some (od_get (registry l) model)) then
        (Raise (AlreadyRegistered
                  ("The model " +:+ __name__ model +:+ " is already registered")), l)
      else
        let options' := <["__doc__" := PyStr (generate_docs model)]> (options l) in
        let made := {| cls_name := __name__ model +:+ "Admin";
                       cls_base := Some (view_class l);
                       cls_dict := Obj <$> options' |} in
        let view_class' := length (store l) in
        register_loop rest {| store := made :: store l;
                              registry := od_set (registry l) model view_class';
                              options := options';
                              view_class := view_class' |}
  end.

Definition register (self : RestFulAdminSite) (model_or_iterable : ModelOrIterable)
    (view_class : option nat) (options : gmap string PyObj)
  : result unit * RestFulAdminSite :=
  let '(r, l) :=
    register_loop (as_iterable model_or_iterable)
      {| store := classes self;
         registry := _registry self;
         options := options;
         view_class := default (default_view_class self) view_class |} in
  (r, {| classes := store l;
         _registry := registry l;
         _url_patterns := _url_patterns self;
         default_view_class := default_view_class self |}).

(** [register_decorator]: the positional models arrive as a tuple, and the
    wrapper returns the decorated class as it is. *)
Definition register_decorator (self : RestFulAdminSite) (models : list Model)
    (options : gmap string PyObj) (view_class : nat)
  : result nat * RestFulAdminSite :=
  let '(r, self') := register self (Iterable models) (Some view_class) options in
  (match r with Ok _ => Ok view_class | Raise e => Raise e end, self').

Definition register_url_pattern (self : RestFulAdminSite) (url_pattern : string)
  : RestFulAdminSite :=
  {| classes := classes self;
     _registry := _registry self;
     _url_patterns := _url_patterns self ++ [url_pattern];
     default_view_class := default_view_class self |}.

Fixpoint unregister_loop (models : list Model) (registry : list (Model * nat))
  : result unit * list (Model * nat) :=
  match models with
  | [] => (Ok (), registry)
  | model :: rest =>
      if bool_decide (is_Some (od_get registry model)) then
        unregister_loop rest (od_del registry model)
      else
        (Raise (NotRegistered ("The model " +:+ __name__ model +:+ " is not registered")),
         registry)
  end.

Definition unregister (self : RestFulAdminSite) (model_or_iterable : ModelOrIterable)
  : result unit * RestFulAdminSite :=
  let '(r, registry') :=
    unregister_loop (as_iterable model_or_iterable) (_registry self) in
  (r, {| classes := classes self;
         _registry := registry';
         _url_patterns := _url_patterns self;
         default_view_class := default_view_class self |}).

Definition is_registered (self : RestFulAdminSite) (model : Model) : bool :=
  bool_decide (is_Some (od_get (_registry self) model)).

Definition get_model_basename (model : Model) : option string := None.

Definition get_model_url (model : Model) : string := model_name (_meta model).

Section get_urls.
(** The framework's router: a fresh [DefaultRouter()], its [register], which
    may read the handler class and may raise, and its [urls]. *)
Context {Router : Type}.
Context (DefaultRouter : Router).
Context (router_register :
           Router → list ClassObj → string → nat → option string → result Router).
Context (router_urls : Router → list string).

(** The loop of [get_urls]; what it assigned to classes before an exception
    stays assigned.  The local list [view_sets] is only appended to and is
    left out. *)
Fixpoint get_urls_loop (items : list (Model * nat)) (store : list ClassObj)
    (router : Router) : result Router * list ClassObj :=
  match items with
  | [] => (Ok router, store)
  | (model, view_set) :: rest =>
      match getattr store view_set "queryset" with
      | Raise e => (Raise e, store)
      | Ok queryset =>
          let store1 :=
            match queryset with
            | PyNone => setattr store view_set "queryset" (AllObjects model)
            | _ => store
            end in
          match getattr store1 view_set "serializer_class" with
          | Raise e => (Raise e, store1)
          | Ok serializer_class =>
              let store2 :=
                match serializer_class with
                | PyNone =>
                    setattr store1 view_set "serializer_class"
                      (ModelSerializerClass (__name__ model +:+ "ModelSerializer") model)
                | _ => store1
                end in
              match router_register router store2 (get_model_url model) view_set
                      (get_model_basename model) with
              | Raise e => (Raise e, store2)
              | Ok router' => get_urls_loop rest store2 router'
              end
          end
      end
  end.

Definition get_urls (self : RestFulAdminSite)
  : result (list string) * RestFulAdminSite :=
  let '(r, store') := get_urls_loop (_registry self) (classes self) DefaultRouter in
  (match r with
   | Ok router => Ok (router_urls router ++ _url_patterns self)
   | Raise e => Raise e
   end,
   {| classes := store';
      _registry := _registry self;
      _url_patterns := _url_patterns self;
      default_view_class := default_view_class self |}).

(** The [urls] property. *)
Definition urls (self : RestFulAdminSite)
  : result (list string * string * string) * RestFulAdminSite :=
  let '(r, self') := get_urls self in
  (match r with Ok us => Ok (us, "api", "api") | Raise e => Raise e end, self').

End get_urls.

(** A router that records what it is given and never raises. *)
Definition recording_register (router : list (string * nat * option string))
    (store : list ClassObj) (prefix : string) (viewset : nat)
    (basename : option string) : result (list (string * nat * option string)) :=
  Ok (router ++ [(prefix, viewset, basename)]).

(** The handler class written in [api/admin.py], with the attributes the
    framework's classes give it. *)
Definition RestFulAdminMVS_class : ClassObj :=
  {| cls_name := "RestFulAdminMVS";
     cls_base := None;
     cls_dict := {["queryset" := PyNone; "serializer_class" := PyNone;
                   "single_serializer_class" := PyNone]} |}.

(** The module-level [site]: [RestFulAdminSite()] with the default class. *)
Definition site : RestFulAdminSite :=
  {| classes := [RestFulAdminMVS_class];
     _registry := [];
     _url_patterns := [];
     default_view_class := 0%nat |}.

(** A store is sound when every base is an older class. *)
Fixpoint store_wf (store : list ClassObj) : Prop :=
  match store with
  | [] => True
  | c :: older =>
      match cls_base c with
      | Some base => (base < length older)%nat
      | None => True
      end ∧ store_wf older
  end.

(** [cls] reaches [root] through bases, and no class on the way, [root]
    excepted, has [name] in its own dictionary. *)
Inductive chain_lacks (store : list ClassObj) (name : string) (root : nat)
  : nat → Prop :=
  | chain_root : chain_lacks store name root root
  | chain_step (cls base : nat) (c : ClassObj) :
      (root < cls)%nat →
      class_at store cls = Some c →
      cls_dict c !! name = None →
      cls_base c = Some base →
      chain_lacks store name root base →
      chain_lacks store name root cls.

End Objects.

(** [register_decorator] on the registry of class values. *)
Definition register_decorator (self : RestFulAdminSite) (models : list Model)
    (options : gmap string PyObj) (view_class : ViewClass)
  : result ViewClass * RestFulAdminSite :=
  let '(r, self') := register self (Iterable models) (Some view_class) options in
  (match r with Ok _ => Ok view_class | Raise e => Raise e end, self').

(** [cls] is a proper subclass of [ancestor]. *)
Inductive subclass_of (ancestor : ViewClass) : ViewClass → Prop :=
  | subclass_direct (name : string) (ns : gmap string PyObj) :
      subclass_of ancestor (type name ancestor ns)
  | subclass_step (name : string) (base : ViewClass) (ns : gmap string PyObj) :
      subclass_of ancestor base → subclass_of ancestor (type name base ns).

(** A handler class is served when it resolves both [queryset] and
    [serializer_class] to something other than [None]. *)
Definition class_served (store : list Objects.ClassObj) (cls : nat) : Prop :=
  ∃ queryset serializer_class,
    Objects.mro_lookup store cls "queryset" = Some queryset ∧
    queryset ≠ Objects.PyNone ∧
    Objects.mro_lookup store cls "serializer_class" = Some serializer_class ∧
    serializer_class ≠ Objects.PyNone.

(** The URLs of the recording router: one per registration, its prefix. *)
Definition recording_urls (router : list (string * nat * option string)) : list string :=
  (λ route, route.1.1) <$> router.

(** The demo registrations of [models/admin.py]: [User], then [TestModel],
    each by a call of its own and with no class given. *)
Definition demo_site : Objects.RestFulAdminSite :=
  (Objects.register
     (Objects.register Objects.site (OneModel User_model) None
        {["permission_classes" := PyOther 1]}).2
     (OneModel TestModel) None ∅).2.

(** ** Permission resolver: theorems *)

Section permission_facts.
Context {V P : Type}.
Implicit Types (self : View V P) (request : Request P) (obj : option (Instance V)).

Lemma has_perm_action_metadata self action request obj :
  method request = "OPTIONS" ∨ action = Some "metadata" →
  _has_perm_action self action request obj = Ok true.
Proof.
  intros Hm. unfold _has_perm_action.
  destruct Hm as [Hm | Hm].
  - by rewrite (bool_decide_eq_true_2 _ Hm).
  - rewrite (bool_decide_eq_true_2 (action = Some "metadata") Hm).
    by rewrite orb_true_r.
Qed.

Lemma has_perm_action_lookup self a request obj :
  method request ≠ "OPTIONS" → a ≠ "metadata" → a ≠ "" →
  _has_perm_action self (Some a) request obj =
    (perm_map ←ᵣ effective_permission_map self a;
     match perm_map !! a with
     | None => Ok (NOT_FOUND_PERMISSION_DEFAULT self)
     | Some (PermCallable f) => Ok (f a request obj)
     | Some (PermBool b) => Ok b
     | Some (PermCode code) => Ok (has_perm (user request) (Some code))
     | Some PermNone => Ok (has_perm (user request) None)
     end).
Proof.
  intros Hm Hmeta He. unfold _has_perm_action.
  rewrite (bool_decide_eq_false_2 _ Hm).
  rewrite bool_decide_eq_false_2 by congruence.
  rewrite (bool_decide_eq_false_2 _ He). simpl.
  destruct (effective_permission_map self a) as [m|e]; simpl; [|done].
  destruct (m !! a) as [[]|]; done.
Qed.

(** The default map has the keys of [get_permission_map] and no others. *)
Lemma get_permission_map_absent self a :
  permission_map self !! a = None →
  a ∉ ["list"; "retrieve"; "create"; "update"; "partial_update"; "delete"] →
  get_permission_map self !! a = None.
Proof.
  intros Hov Hnot. unfold get_permission_map, dict_update.
  apply lookup_union_None. split; [done|].
  rewrite !lookup_insert_ne; [apply lookup_empty|..];
    intros <-; apply Hnot; set_solver.
Qed.

(** Without an override and without an annotation, [destroy] is resolved
    by the not-found default: the default map files the delete permission
    under ["delete"], a key no action of the handler has. *)
Lemma destroy_resolves_to_default self request obj :
  method request ≠ "OPTIONS" →
  permission_map self !! "destroy" = None →
  view_attrs self !! "destroy" = Some {| permission := None |} →
  _has_perm_action self (Some "destroy") request obj
    = Ok (NOT_FOUND_PERMISSION_DEFAULT self).
Proof.
  intros Hm Hov Hattr.
  rewrite has_perm_action_lookup by done.
  unfold effective_permission_map, getattr. rewrite Hattr. simpl.
  rewrite get_permission_map_absent; [done|done|].
  set_unfold. intuition discriminate.
Qed.

End permission_facts.

Lemma effective_permission_map_absent {V P} (self : View V P) a m :
  effective_permission_map self a = Ok m →
  m !! a = None ↔ not_in_effective_map self a.
Proof.
  unfold effective_permission_map, getattr, not_in_effective_map.
  destruct (view_attrs self !! a) as [attr|] eqn:Hattr; simpl; [|done].
  destruct (permission attr) as [p|] eqn:Hp; intros [= <-].
  - rewrite lookup_insert_eq. split; [done|].
    intros [_ Hno]. specialize (Hno attr eq_refl). congruence.
  - split; [|by intros []]. intros Hnone. split; [done|]. by intros ? [= <-].
Qed.

(** C1. Checked at the request the claim is about: a caller who holds
    [models.delete_testmodel] sends DELETE to a handler with no override and
    no annotation, under the shipped default.  The default map holds the
    delete permission under ["delete"] and has no entry for ["destroy"], so
    both the collection-level and the object-level check resolve to denied
    and the caller's delete permission is never consulted. *)
Theorem destroy_denied_with_delete_permission :
  let self := TestModel_view false in
  let caller := user_with 7 ["models.delete_testmodel"] in
  let request := request_of "DELETE" caller ∅ in
  has_perm caller (Some (_make_permission_key self "delete")) = true ∧
  get_permission_map self !! "delete" = Some (PermCode "models.delete_testmodel") ∧
  get_permission_map self !! "destroy" = None ∧
  has_permission request self (Some "destroy") = Ok false ∧
  ∀ obj, has_object_permission request self (Some "destroy") obj = Ok false.
Proof.
  cbv zeta. split; [reflexivity|]. split; [reflexivity|].
  split; [reflexivity|]. split.
  - unfold has_permission. by rewrite destroy_resolves_to_default.
  - intros obj. unfold has_object_permission.
    by rewrite destroy_resolves_to_default.
Qed.

(** C3, as stated, fails: with the not-found default configured to allowed,
    an empty action on a GET request is still denied. *)
Lemma empty_action_ignores_default :
  ¬ (∀ (self : View Z (gmap string Z)) (action : option string)
       (request : Request (gmap string Z)) (obj : option (Instance Z)),
       action = None ∨ action = Some "" →
       method request ≠ "OPTIONS" →
       _has_perm_action self action request obj
         = Ok (NOT_FOUND_PERMISSION_DEFAULT self)).
Proof.
  intros Hclaim.
  specialize (Hclaim (TestModel_view true) (Some "")
                (request_of "GET" (user_with 7 []) ∅) None).
  discriminate Hclaim; [by right | done].
Qed.

(** C3, amended. For every request whose action is unset or empty and whose
    method is not OPTIONS, permission resolution returns denied, whatever the
    not-found default is configured to. *)
Theorem empty_action_denied {V P} (self : View V P) (action : option string)
    (request : Request P) (obj : option (Instance V)) :
  action = None ∨ action = Some "" →
  method request ≠ "OPTIONS" →
  _has_perm_action self action request obj = Ok false.
Proof.
  intros Hempty Hm. unfold _has_perm_action.
  rewrite (bool_decide_eq_false_2 _ Hm).
  destruct Hempty as [-> | ->]; reflexivity.
Qed.

Lemma empty_action_denied_witness :
  NOT_FOUND_PERMISSION_DEFAULT (TestModel_view true) = true ∧
  _has_perm_action (TestModel_view true) None
    (request_of "PUT" (user_with 7 []) ∅) None = Ok false.
Proof.
  split; [reflexivity|].
  apply empty_action_denied; [left; reflexivity | discriminate].
Defined.

(** C5, as stated, fails at the empty action: it is in none of the maps, the
    not-found default is allowed, and resolution answers denied. *)
Lemma absent_empty_action_not_default :
  ¬ (∀ (self : View Z (gmap string Z)) (a : string)
       (request : Request (gmap string Z)) (obj : option (Instance Z)),
       not_in_effective_map self a →
       _has_perm_action self (Some a) request obj
         = Ok (if bool_decide (method request = "OPTIONS")
                  || bool_decide (a = "metadata")
               then true else NOT_FOUND_PERMISSION_DEFAULT self)).
Proof.
  intros Hclaim.
  specialize (Hclaim (TestModel_view true) ""
                (request_of "GET" (user_with 7 []) ∅) None).
  discriminate Hclaim.
  split; [reflexivity|]. intros attr Hattr. discriminate Hattr.
Qed.

(** An action that names no attribute of the handler makes [getattr]
    raise. *)
Lemma unknown_action_raises {V P} (self : View V P) (a : string)
    (request : Request P) (obj : option (Instance V)) :
  method request ≠ "OPTIONS" → a ≠ "metadata" → a ≠ "" →
  view_attrs self !! a = None →
  _has_perm_action self (Some a) request obj = Raise (AttributeError a).
Proof.
  intros Hm Hmeta He Hattr. rewrite has_perm_action_lookup by done.
  unfold effective_permission_map, getattr. by rewrite Hattr.
Qed.

(** C5, amended. For every non-empty action that names an attribute of the
    handler and is absent from the handler's effective permission map,
    permission resolution returns the configured not-found default; except
    that when the action is the metadata action or the request method is
    OPTIONS, resolution returns allowed regardless of the map and the
    default. *)
Theorem absent_action_gets_default {V P} (self : View V P) (a : string)
    (request : Request P) (obj : option (Instance V)) (m : gmap string (Perm V P)) :
  a ≠ "" →
  effective_permission_map self a = Ok m →
  m !! a = None →
  _has_perm_action self (Some a) request obj
    = Ok (if bool_decide (method request = "OPTIONS") || bool_decide (a = "metadata")
          then true else NOT_FOUND_PERMISSION_DEFAULT self) ∧
  ∀ (action' : option string) (self' : View V P) (obj' : option (Instance V)),
    method request = "OPTIONS" ∨ action' = Some "metadata" →
    _has_perm_action self' action' request obj' = Ok true.
Proof.
  intros He Hmap Habsent. split.
  - destruct (decide (method request = "OPTIONS")) as [Hm|Hm].
    { rewrite (bool_decide_eq_true_2 _ Hm). simpl.
      apply has_perm_action_metadata. by left. }
    destruct (decide (a = "metadata")) as [Ha|Ha].
    { rewrite (bool_decide_eq_true_2 _ Ha), orb_true_r.
      apply has_perm_action_metadata. right. by rewrite Ha. }
    rewrite (bool_decide_eq_false_2 _ Hm), (bool_decide_eq_false_2 _ Ha). simpl.
    rewrite has_perm_action_lookup by done.
    rewrite Hmap. simpl. by rewrite Habsent.
  - intros action' self' obj' Hmeta. by apply has_perm_action_metadata.
Qed.

Lemma absent_action_gets_default_witness :
  _has_perm_action (TestModel_view true) (Some "destroy")
    (request_of "DELETE" (user_with 7 []) ∅) None = Ok true.
Proof.
  refine (proj1 (absent_action_gets_default (TestModel_view true) "destroy"
                   (request_of "DELETE" (user_with 7 []) ∅) None
                   (get_permission_map (TestModel_view true)) _ _ _));
    [discriminate | reflexivity | reflexivity].
Defined.

(** ** Diff helper: theorems *)

Section diff_facts.
Context {V : Type} (py_ne : V → V → bool).
Implicit Types (l : list (string * V)).

(** When every listed key is in [d2], the comprehension returns, keeps the
    order of the items and holds exactly the unequal pairs. *)
Lemma diff_items_ok (d2 : gmap string V) l :
  (∀ k v, (k, v) ∈ l → is_Some (d2 !! k)) →
  ∃ ds, diff_items py_ne d2 l = Ok ds ∧
        ds.*1 `sublist_of` l.*1 ∧
        ∀ k old new, (k, (old, new)) ∈ ds ↔
                     (k, old) ∈ l ∧ d2 !! k = Some new ∧ py_ne old new = true.
Proof.
  induction l as [|[k v] rest IH]; intros Hkeys.
  - exists []. split; [done|]. split; [done|].
    intros k old new. split; [intros Hin | intros [Hin _]];
      by apply elem_of_nil in Hin.
  - destruct (Hkeys k v) as [v2 Hv2]; [by left|].
    destruct IH as (ds & Hds & Hsub & Hin).
    { intros k' v' Hk'. apply (Hkeys k' v'). by right. }
    simpl. rewrite Hv2, Hds. simpl.
    destruct (py_ne v v2) eqn:Hne.
    + eexists. split; [done|]. split; [by apply sublist_skip|].
      intros k' old new. rewrite !elem_of_cons, Hin. split.
      * intros [[= -> -> ->] | (? & ? & ?)]; [by auto|by auto].
      * intros ([[= -> ->] | ?] & Hk' & Hne'); [left|right; by auto].
        rewrite Hv2 in Hk'. by injection Hk' as ->.
    + exists ds. split; [done|]. split; [by apply sublist_cons|].
      intros k' old new. rewrite elem_of_cons, Hin. split.
      * intros (? & ? & ?). by auto.
      * intros ([[= -> ->] | ?] & Hk' & Hne'); [|by auto].
        rewrite Hv2 in Hk'. injection Hk' as ->. congruence.
Qed.

(** A listed key that [d2] lacks makes the comprehension raise
    [KeyError]. *)
Lemma diff_items_raises (d2 : gmap string V) l k v :
  (k, v) ∈ l → d2 !! k = None →
  ∃ k', diff_items py_ne d2 l = Raise (KeyError k') ∧ d2 !! k' = None.
Proof.
  intros Hin Hk. induction l as [|[k0 v0] rest IH]; [by apply elem_of_nil in Hin|].
  simpl. destruct (d2 !! k0) as [v2|] eqn:Hk0; [|by eauto].
  apply elem_of_cons in Hin as [[= -> ->] | Hin]; [congruence|].
  destruct (IH Hin) as (k' & -> & Hk'). by eauto.
Qed.

Lemma diff_without_update (h : ModelDiffHelper V) :
  _new_object h = None → diff py_ne h = Ok ∅.
Proof. intros Hn. unfold diff. by rewrite Hn. Qed.

Lemma diff_lookup_spec (h : ModelDiffHelper V) (d2 : gmap string V) :
  _new_object h = Some d2 →
  d2 = ∅ ∨ (∀ k, is_Some (__initial h !! k) → is_Some (d2 !! k)) →
  ∃ m, diff py_ne h = Ok m ∧
       ∀ k old new, m !! k = Some (old, new) ↔
                    __initial h !! k = Some old ∧ d2 !! k = Some new
                    ∧ py_ne old new = true.
Proof.
  intros Hnew Hkeys. unfold diff. rewrite Hnew.
  destruct (decide (d2 = ∅)) as [-> | Hne].
  { rewrite bool_decide_eq_true_2 by done. exists ∅. split; [done|].
    intros k old new. rewrite !lookup_empty.
    split; [intros [=] | intros (_ & [=] & _)]. }
  rewrite bool_decide_eq_false_2 by done.
  destruct Hkeys as [? | Hkeys]; [done|].
  destruct (diff_items_ok d2 (map_to_list (__initial h))) as (ds & Hds & Hsub & Hin).
  { intros k v Hkv. apply Hkeys. apply elem_of_map_to_list in Hkv. by eexists. }
  rewrite Hds. simpl. eexists. split; [done|].
  intros k old new. rewrite <-elem_of_list_to_map.
  - rewrite Hin, elem_of_map_to_list. reflexivity.
  - exact (sublist_NoDup _ _ (NoDup_fst_map_to_list (__initial h)) Hsub).
Qed.

(** On that domain the code computes the field-by-field comparison. *)
Lemma diff_is_snapshot_diff (h : ModelDiffHelper V) (d2 : gmap string V) :
  _new_object h = Some d2 →
  d2 = ∅ ∨ (∀ k, is_Some (__initial h !! k) → is_Some (d2 !! k)) →
  diff py_ne h = Ok (snapshot_diff py_ne (__initial h) d2).
Proof.
  intros Hnew Hkeys.
  destruct (diff_lookup_spec h d2 Hnew Hkeys) as (m & -> & Hm).
  f_equal. apply map_eq. intros k. apply option_eq. intros [old new].
  rewrite Hm. unfold snapshot_diff. rewrite lookup_merge.
  destruct (__initial h !! k) as [v1|], (d2 !! k) as [v2|]; simpl;
    [destruct (py_ne v1 v2) eqn:Hne|..];
    (split; [intros (? & ? & ?) | intros ?]); simplify_eq; auto; congruence.
Qed.

(** Two snapshots of one model have the same fields: the diff returns. *)
Lemma diff_total_same_fields (h : ModelDiffHelper V) (d2 : gmap string V) :
  _new_object h = Some d2 → dom (__initial h) = dom d2 →
  diff py_ne h = Ok (snapshot_diff py_ne (__initial h) d2).
Proof.
  intros Hnew Hdom. apply diff_is_snapshot_diff; [done|]. right.
  intros k Hk. apply elem_of_dom. rewrite <-Hdom. by apply elem_of_dom.
Qed.

Lemma diff_raises_on_missing_field (h : ModelDiffHelper V) (d2 : gmap string V) k :
  _new_object h = Some d2 → d2 ≠ ∅ →
  is_Some (__initial h !! k) → d2 !! k = None →
  ∃ k', diff py_ne h = Raise (KeyError k') ∧ d2 !! k' = None.
Proof.
  intros Hnew Hne [v Hv] Hk. unfold diff. rewrite Hnew.
  rewrite bool_decide_eq_false_2 by done.
  destruct (diff_items_raises d2 (map_to_list (__initial h)) k v)
    as (k' & -> & Hk'); [by apply elem_of_map_to_list|done|].
  by eauto.
Qed.

(** The second call of [set_changed_model] stores the snapshot it was just
    given as both the initial and the new one. *)
Lemma set_changed_model_twice (h : ModelDiffHelper V) (s1 s2 : Instance V) :
  set_changed_model (set_changed_model h s1) s2
    = {| __initial := _dict s2; _new_object := Some (_dict s2) |}.
Proof. reflexivity. Qed.

Lemma set_changed_model_first (initial s1 : Instance V) :
  set_changed_model (__init__ initial) s1
    = {| __initial := _dict initial; _new_object := Some (_dict s1) |}.
Proof. reflexivity. Qed.

End diff_facts.

(** With a comparison under which no value differs from itself, the diff
    after a second [set_changed_model] is empty whatever the snapshots. *)
Lemma chained_diff_empty {V} (py_ne : V → V → bool) (h : ModelDiffHelper V)
    (s1 s2 : Instance V) :
  (∀ v, py_ne v v = false) →
  diff py_ne (set_changed_model (set_changed_model h s1) s2) = Ok ∅.
Proof.
  intros Hrefl. rewrite set_changed_model_twice.
  rewrite (diff_is_snapshot_diff py_ne _ (_dict s2)); [|done|by right].
  f_equal. apply map_eq. intros k. unfold snapshot_diff.
  rewrite lookup_merge, lookup_empty. simpl.
  destruct (_dict s2 !! k) as [v|]; simpl; [|done]. by rewrite Hrefl.
Qed.

(** C2. Checked on a helper built from [{a: 1}] and updated with [{a: 2}]
    and then [{a: 3}]: the second update stores [{a: 3}] as the initial
    snapshot as well, so the diff is empty, while comparing the first update
    against the second field by field gives [{a: (2, 3)}]. *)
Theorem chained_diff_loses_previous_snapshot :
  let s1 := record_of 1 "r" [("a", 2)] in
  let s2 := record_of 1 "r" [("a", 3)] in
  let h := set_changed_model
             (set_changed_model (__init__ (record_of 1 "r" [("a", 1)])) s1) s2 in
  __initial h = _dict s2 ∧
  diff Z_ne h = Ok ∅ ∧
  snapshot_diff Z_ne (_dict s1) (_dict s2) = {["a" := (2, 3)]}.
Proof.
  cbv zeta. split; [reflexivity|]. split.
  - apply chained_diff_empty. intros v. unfold Z_ne. by rewrite Z.eqb_refl.
  - vm_compute. reflexivity.
Qed.

(** The example of the specification: [{a: 1, b: 2}] against [{a: 1, b: 3}]. *)
Example diff_changed_field :
  let h := set_changed_model
             (__init__ (record_of 1 "r" [("a", 1); ("b", 2)]))
             (record_of 1 "r" [("a", 1); ("b", 3)]) in
  diff Z_ne h = Ok {["b" := (2, 3)]} ∧
  has_changed Z_ne h = Ok true ∧
  changed_fields Z_ne h = Ok ["b"] ∧
  get_field_diff Z_ne h "a" = Ok None.
Proof. vm_compute. repeat split. Qed.

Example diff_identical_snapshots :
  let h := set_changed_model
             (__init__ (record_of 1 "r" [("a", 1); ("b", 2)]))
             (record_of 1 "r" [("a", 1); ("b", 2)]) in
  diff Z_ne h = Ok ∅ ∧ has_changed Z_ne h = Ok false.
Proof. vm_compute. repeat split. Qed.

Example diff_missing_field :
  diff Z_ne {| __initial := list_to_map [("a", 1); ("b", 2)];
               _new_object := Some (list_to_map [("a", 1)]) |}
    = Raise (KeyError "b").
Proof. vm_compute. reflexivity. Qed.

(** C4, as stated, fails: with initial [{a: 1, b: 2}] and updated [{a: 1}]
    the lookup of [b] in the updated snapshot raises [KeyError]. *)
Lemma diff_raises_on_differing_keys :
  ¬ (∀ d1 d2 : gmap string Z,
       ∃ m, diff Z_ne {| __initial := d1; _new_object := Some d2 |} = Ok m ∧
            ∀ k old new, m !! k = Some (old, new) ↔
                         d1 !! k = Some old ∧ d2 !! k = Some new
                         ∧ Z_ne old new = true).
Proof.
  intros Hclaim.
  destruct (Hclaim (list_to_map [("a", 1); ("b", 2)]) (list_to_map [("a", 1)]))
    as (m & Hm & _).
  vm_compute in Hm. discriminate Hm.
Qed.

(** C4, amended. For every pair of initial and updated snapshots in which
    the updated snapshot is empty or has every field of the initial one,
    computing the diff does not raise and yields exactly the fields that are
    present in both snapshots with unequal values, each mapped to its (old
    value, new value) pair; a field present in only one snapshot does not
    appear in the diff. *)
Theorem diff_total_on_shared_fields {V} (py_ne : V → V → bool)
    (h : ModelDiffHelper V) (d2 : gmap string V) :
  _new_object h = Some d2 →
  d2 = ∅ ∨ (∀ k, is_Some (__initial h !! k) → is_Some (d2 !! k)) →
  ∃ m, diff py_ne h = Ok m ∧
       (∀ k old new, m !! k = Some (old, new) ↔
                     __initial h !! k = Some old ∧ d2 !! k = Some new
                     ∧ py_ne old new = true) ∧
       (∀ k, __initial h !! k = None ∨ d2 !! k = None → m !! k = None).
Proof.
  intros Hnew Hkeys.
  destruct (diff_lookup_spec py_ne h d2 Hnew Hkeys) as (m & Hdiff & Hm).
  exists m. split; [done|]. split; [done|].
  intros k Hone. destruct (m !! k) as [[old new]|] eqn:Hk; [|done].
  apply Hm in Hk as (Hold & Hnew' & _). destruct Hone; congruence.
Qed.

Lemma diff_total_on_shared_fields_witness :
  ∃ m, diff Z_ne {| __initial := list_to_map [("a", 1); ("b", 2)];
                    _new_object := Some (list_to_map [("a", 1); ("b", 3); ("c", 9)]) |}
         = Ok m ∧ m !! "b" = Some (2, 3) ∧ m !! "c" = None.
Proof.
  destruct (diff_total_on_shared_fields Z_ne
              {| __initial := list_to_map [("a", 1); ("b", 2)];
                 _new_object := Some (list_to_map [("a", 1); ("b", 3); ("c", 9)]) |}
              (list_to_map [("a", 1); ("b", 3); ("c", 9)]) eq_refl)
    as (m & Hdiff & Hm & Hone).
  - right. intros k [v Hv]. simpl in Hv.
    destruct (decide (k = "a")) as [-> | Ha]; [by eexists|].
    destruct (decide (k = "b")) as [-> | Hb]; [by eexists|].
    simpl in Hv. rewrite !lookup_insert_ne in Hv by done. done.
  - exists m. split; [done|]. split.
    + apply Hm. done.
    + apply Hone. by left.
Defined.

(** ** CRUD handler: theorems *)

Section crud_facts.
Context {V P : Type}.
Context (is_valid : P → option (gmap string V)).
Context (orm_create : gmap Z (Instance V) → gmap string V → result (Instance V)).
Implicit Types (self : Handler V P) (request : Request P) (w : World V).

(** Fetching and authorizing leave the world as it is. *)
Lemma get_object_pure self request key w :
  (get_object self request key w).2 = w.
Proof.
  unfold get_object. destruct (table w !! key) as [instance|]; [|done].
  by destruct (has_object_permission _ _ _ _) as [[]|].
Qed.

Lemma get_object_found self request key w instance :
  (get_object self request key w).1 = Ok instance →
  table w !! key = Some instance.
Proof.
  unfold get_object. destruct (table w !! key) as [i|]; [|done].
  destruct (has_object_permission _ _ _ _) as [[]|]; simpl; congruence.
Qed.

(** A [destroy] that does not get its object touches nothing. *)
Lemma destroy_not_found self request key w e :
  (get_object self request key w).1 = Raise e →
  destroy self request key w = (Raise e, w).
Proof.
  intros Hget. unfold destroy, bind.
  pose proof (get_object_pure self request key w) as Hw.
  destruct (get_object self request key w) as [[i|e'] w1]; simpl in *; congruence.
Qed.

(** Where the two events a list gains at its end sit. *)
Lemma appended_pair_positions {A} (t : list A) (x y z : A) (i : nat) :
  (t ++ [x; y]) !! i = Some z → (length t ≤ i)%nat →
  (i = length t ∧ z = x) ∨ (i = S (length t) ∧ z = y).
Proof.
  intros Hi Hli. rewrite lookup_app_r in Hi by done.
  destruct (i - length t)%nat as [|[|?]] eqn:Ei; simpl in Hi; simplify_eq.
  - left. split; [lia|done].
  - right. split; [lia|done].
Qed.

Lemma create_run self request w :
  create is_valid orm_create self request w =
    match is_valid (data request) with
    | None => (Raise ValidationError, w)
    | Some validated =>
        match orm_create (table w) validated with
        | Raise e => (Raise e, w)
        | Ok instance =>
            let entry :=
              {| user_id := user_pk (user request);
                 content_type_id := content_type_pk self;
                 object_id := pk instance;
                 object_repr := ReprStr (str instance);
                 action_flag := ADDITION;
                 change_message :=
                   Some (MsgAdded (verbose_name (_options (view self))) (str instance)) |} in
            (Ok {| status := 201; body := Some instance |},
             {| table := <[pk instance := instance]> (table w);
                admin_log := admin_log w ++ [entry];
                trace := (trace w ++ [Saved instance]) ++ [Logged entry] |})
        end
    end.
Proof.
  unfold create. destruct (is_valid (data request)) as [validated|]; [|done].
  unfold bind, perform_create.
  by destruct (orm_create (table w) validated) as [instance|e].
Qed.

End crud_facts.

(** DELETE on a key the table lacks: the not-found response, and nothing
    written. *)
Lemma delete_missing_record {V P} (self : Handler V P) (request : Request P)
    (key : Z) (w : World V) :
  has_permission request (view self) (Some "destroy") = Ok true →
  table w !! key = None →
  delete_record self request key w = (Ok {| status := 404; body := None |}, w).
Proof.
  intros Hperm Hnone. unfold delete_record, dispatch. simpl. rewrite Hperm.
  rewrite destroy_not_found with (e := Http404); [done|].
  unfold get_object. by rewrite Hnone.
Qed.

(** C6. In every destroy that gets its object and so reaches execution, the
    handler first writes the deletion audit entry, carrying the key of the
    object and its display string taken while the object is still stored,
    and only then deletes the record; among the events of the request the
    log entry comes strictly before the delete. *)
Theorem deletion_logged_before_delete {V P} (self : Handler V P)
    (request : Request P) (key : Z) (w : World V) (instance : Instance V) :
  get_object self request key w = (Ok instance, w) →
  ∃ entry w',
    destroy self request key w = (Ok {| status := 204; body := None |}, w') ∧
    trace w' = trace w ++ [Logged entry; Removed (pk instance)] ∧
    admin_log w' = admin_log w ++ [entry] ∧
    table w' = delete (pk instance) (table w) ∧
    table w !! key = Some instance ∧
    object_id entry = pk instance ∧
    action_flag entry = DELETION ∧
    object_repr entry
      = ReprMessage (MsgDeleted (verbose_name (_options (view self))) (str instance)) ∧
    ∀ (i j : nat) entry' key',
      trace w' !! i = Some (Logged entry') →
      trace w' !! j = Some (Removed key') →
      (length (trace w) ≤ i)%nat → (length (trace w) ≤ j)%nat → (i < j)%nat.
Proof.
  intros Hget. unfold destroy, bind. rewrite Hget. simpl.
  eexists. eexists. split; [reflexivity|]. simpl.
  split; [by rewrite <-app_assoc|]. split; [done|]. split; [done|].
  split. { apply (get_object_found self request). by rewrite Hget. }
  split; [done|]. split; [done|]. split; [done|].
  intros i j entry' key' Hi Hj Hli Hlj. rewrite <-app_assoc in Hi, Hj. simpl in Hi, Hj.
  apply appended_pair_positions in Hi as [[-> _] | [_ [=]]]; [|done].
  apply appended_pair_positions in Hj as [[_ [=]] | [-> _]]; [|done]. lia.
Qed.

Lemma deletion_logged_before_delete_witness :
  ∃ entry w',
    destroy (TestModel_handler TestModel_guarded_view (Some "destroy"))
      (request_of "DELETE" (user_with 7 ["models.delete_testmodel"]) ∅) 4 demo_world
      = (Ok {| status := 204; body := None |}, w') ∧
    trace w' = [Logged entry; Removed 4] ∧
    object_id entry = 4.
Proof.
  destruct (deletion_logged_before_delete
              (TestModel_handler TestModel_guarded_view (Some "destroy"))
              (request_of "DELETE" (user_with 7 ["models.delete_testmodel"]) ∅)
              4 demo_world (record_of 4 "TestModel object (4)" [("field", 10)]))
    as (entry & w' & Hrun & Htrace & _ & _ & _ & Hid & _).
  - vm_compute. reflexivity.
  - exists entry, w'. split; [exact Hrun|]. split; [exact Htrace|exact Hid].
Defined.

(** C7. A create request that fails the collection-level authorization gets
    the denial response, and one that is authorized but whose payload fails
    validation gets the client-error response; in both cases the table, the
    audit log and the trace are as before.  In every run the world either is
    unchanged or gained exactly the saved record followed by its addition
    audit entry, so the entry is written only after the record is stored. *)
Theorem create_short_circuits_before_audit {V P}
    (is_valid : P → option (gmap string V))
    (orm_create : gmap Z (Instance V) → gmap string V → result (Instance V))
    (self : Handler V P) (request : Request P) (w w' : World V)
    (r : result (Response V)) :
  post_collection is_valid orm_create self request w = (r, w') →
  (has_permission request (view self) (Some "create") = Ok false →
     r = Ok {| status := 403; body := None |} ∧ w' = w) ∧
  (has_permission request (view self) (Some "create") = Ok true →
   is_valid (data request) = None →
     r = Ok {| status := 400; body := None |} ∧ w' = w) ∧
  (w' = w ∨
   ∃ validated instance entry,
     has_permission request (view self) (Some "create") = Ok true ∧
     is_valid (data request) = Some validated ∧
     orm_create (table w) validated = Ok instance ∧
     r = Ok {| status := 201; body := Some instance |} ∧
     trace w' = trace w ++ [Saved instance; Logged entry] ∧
     admin_log w' = admin_log w ++ [entry] ∧
     table w' = <[pk instance := instance]> (table w) ∧
     object_id entry = pk instance ∧
     object_repr entry = ReprStr (str instance) ∧
     action_flag entry = ADDITION).
Proof.
  unfold post_collection, dispatch. simpl.
  destruct (has_permission request (view self) (Some "create")) as [[]|e] eqn:Hperm.
  - rewrite create_run.
    destruct (is_valid (data request)) as [validated|] eqn:Hvalid.
    + destruct (orm_create (table w) validated) as [instance|e] eqn:Hsave.
      * intros [= <- <-]. split; [done|]. split; [done|]. right.
        eexists validated, instance, _. simpl.
        repeat (split; [done|]). split; [by rewrite <-app_assoc|]. done.
      * intros [= <- <-]. split; [done|]. split; [done|]. by left.
    + intros [= <- <-]. split; [done|]. split; [done|]. by left.
  - intros [= <- <-]. split; [done|]. split; [done|]. by left.
  - intros [= <- <-]. split; [done|]. split; [done|]. by left.
Qed.

Lemma create_short_circuits_before_audit_witness :
  let request :=
    request_of "POST" (user_with 7 ["models.add_testmodel"]) {["field" := 5]} in
  let run := post_collection demo_is_valid demo_orm_create
               (TestModel_handler (TestModel_view false) None) request demo_world in
  ∃ instance entry,
    run.1 = Ok {| status := 201; body := Some instance |} ∧
    trace run.2 = [Saved instance; Logged entry] ∧
    object_id entry = pk instance.
Proof.
  intros request run.
  destruct (create_short_circuits_before_audit demo_is_valid demo_orm_create
              (TestModel_handler (TestModel_view false) None) request
              demo_world run.2 run.1)
    as (_ & _ & [Hsame | (validated & instance & entry & _ & _ & _
                          & Hr & Htrace & _ & _ & Hid & _)]).
  - vm_compute. reflexivity.
  - apply (f_equal admin_log) in Hsame. vm_compute in Hsame. discriminate Hsame.
  - exists instance, entry. split; [exact Hr|]. split; [exact Htrace|exact Hid].
Defined.

(** ** Registry: theorems *)

Lemma with_registry_same (self : RestFulAdminSite) :
  with_registry self (_registry self) = self.
Proof. by destruct self. Qed.

Lemma is_registered_true (self : RestFulAdminSite) (model : Model) :
  is_registered self model = true ↔ is_Some (_registry self !! model).
Proof. unfold is_registered. apply bool_decide_eq_true. Qed.

Lemma is_registered_false (self : RestFulAdminSite) (model : Model) :
  is_registered self model = false ↔ _registry self !! model = None.
Proof.
  unfold is_registered. rewrite bool_decide_eq_false.
  by rewrite eq_None_not_Some.
Qed.

Lemma site__init__wf (view_class : ViewClass) : registry_wf (site__init__ view_class).
Proof. intros model cls. simpl. by rewrite lookup_empty. Qed.

(** The loop of [register] only adds entries, whatever its outcome. *)
Lemma register_loop_keeps (models : list Model) (l l' : RegisterLocals)
    (r : result unit) (model : Model) :
  register_loop models l = (r, l') →
  is_Some (registry l !! model) → is_Some (registry l' !! model).
Proof.
  revert l. induction models as [|m rest IH]; intros l Hrun Hin; simpl in Hrun.
  - by injection Hrun as _ <-.
  - destruct (abstract (_meta m)); [by injection Hrun as _ <-|].
    destruct (bool_decide (is_Some (registry l !! m))); [by injection Hrun as _ <-|].
    apply (IH _ Hrun). simpl.
    destruct (decide (m = model)) as [-> | Hne].
    + rewrite lookup_insert_eq. by eexists.
    + by rewrite lookup_insert_ne.
Qed.

(** When the loop finishes, every model it was given is registered. *)
Lemma register_loop_ok (models : list Model) (l l' : RegisterLocals) (model : Model) :
  register_loop models l = (Ok (), l') →
  model ∈ models → is_Some (registry l' !! model).
Proof.
  revert l. induction models as [|m rest IH]; intros l Hrun Hin; simpl in Hrun.
  - by apply elem_of_nil in Hin.
  - destruct (abstract (_meta m)); [done|].
    destruct (bool_decide (is_Some (registry l !! m))); [done|].
    apply elem_of_cons in Hin as [-> | Hin]; [|by apply (IH _ Hrun)].
    apply (register_loop_keeps _ _ _ _ _ Hrun). simpl.
    rewrite lookup_insert_eq. by eexists.
Qed.

Lemma register_loop_wf (models : list Model) (l l' : RegisterLocals) (r : result unit) :
  register_loop models l = (r, l') →
  (∀ model cls, registry l !! model = Some cls → abstract (_meta model) = false) →
  ∀ model cls, registry l' !! model = Some cls → abstract (_meta model) = false.
Proof.
  revert l. induction models as [|m rest IH]; intros l Hrun Hwf; simpl in Hrun.
  - by injection Hrun as _ <-.
  - destruct (abstract (_meta m)) eqn:Habs; [by injection Hrun as _ <-|].
    destruct (bool_decide (is_Some (registry l !! m))); [by injection Hrun as _ <-|].
    apply (IH _ Hrun). simpl. intros model cls.
    destruct (decide (m = model)) as [-> | Hne]; [done|].
    rewrite lookup_insert_ne by done. apply Hwf.
Qed.

Lemma register_wf (self self' : RestFulAdminSite) (mi : ModelOrIterable)
    (view_class : option ViewClass) (options : gmap string PyObj) (r : result unit) :
  register self mi view_class options = (r, self') →
  registry_wf self → registry_wf self'.
Proof.
  unfold register.
  destruct (register_loop _ _) as [r' l'] eqn:Hrun. intros [= <- <-] Hwf.
  exact (register_loop_wf _ _ _ _ Hrun Hwf).
Qed.

Lemma unregister_loop_wf (models : list Model) (reg reg' : gmap Model ViewClass)
    (r : result unit) :
  unregister_loop models reg = (r, reg') →
  (∀ model cls, reg !! model = Some cls → abstract (_meta model) = false) →
  ∀ model cls, reg' !! model = Some cls → abstract (_meta model) = false.
Proof.
  revert reg. induction models as [|m rest IH]; intros reg Hrun Hwf; simpl in Hrun.
  - by injection Hrun as _ <-.
  - destruct (bool_decide (is_Some (reg !! m))); [|by injection Hrun as _ <-].
    apply (IH _ Hrun). intros model cls Hlook.
    apply lookup_delete_Some in Hlook as [_ Hlook]. by eapply Hwf.
Qed.

Lemma unregister_wf (self self' : RestFulAdminSite) (mi : ModelOrIterable)
    (r : result unit) :
  unregister self mi = (r, self') → registry_wf self → registry_wf self'.
Proof.
  unfold unregister.
  destruct (unregister_loop _ _) as [r' reg'] eqn:Hrun. intros [= <- <-] Hwf.
  exact (unregister_loop_wf _ _ _ _ Hrun Hwf).
Qed.

Lemma reachable_wf (self : RestFulAdminSite) : reachable self → registry_wf self.
Proof.
  induction 1 as [view_class | self mi view_class opts _ IH | self mi _ IH].
  - apply site__init__wf.
  - eapply register_wf; [apply surjective_pairing | exact IH].
  - eapply unregister_wf; [apply surjective_pairing | exact IH].
Qed.

(** C8. On a registry that holds only concrete models, as every registry
    built by [register] and [unregister] does: registering a registered model
    raises [AlreadyRegistered], unregistering an unregistered model raises
    [NotRegistered], each leaving the registry as it was; and after a
    successful [register] that includes the model [is_registered] is true,
    the following [unregister] of it succeeds, and [is_registered] is then
    false. *)
Theorem register_unregister_contract (self : RestFulAdminSite) (model : Model)
    (view_class : option ViewClass) (options : gmap string PyObj) :
  registry_wf self →
  (is_registered self model = true →
     register self (OneModel model) view_class options
       = (Raise (already_registered_error model), self)) ∧
  (is_registered self model = false →
     unregister self (OneModel model)
       = (Raise (not_registered_error model), self)) ∧
  (∀ (mi : ModelOrIterable) (self1 : RestFulAdminSite),
     model ∈ as_iterable mi →
     register self mi view_class options = (Ok (), self1) →
     is_registered self1 model = true ∧
     ∃ self2, unregister self1 (OneModel model) = (Ok (), self2) ∧
              is_registered self2 model = false).
Proof.
  intros Hwf. split; [|split].
  - intros Hreg. apply is_registered_true in Hreg as Hsome.
    destruct Hsome as [cls Hcls].
    unfold register. simpl. rewrite (Hwf model cls Hcls).
    rewrite bool_decide_eq_true_2 by by eexists.
    simpl. by rewrite with_registry_same.
  - intros Hreg. apply is_registered_false in Hreg.
    unfold unregister. simpl. rewrite Hreg.
    rewrite bool_decide_eq_false_2 by by intros [? [=]].
    by rewrite with_registry_same.
  - intros mi self1 Hin. unfold register.
    destruct (register_loop _ _) as [r l'] eqn:Hrun. intros [= -> <-].
    pose proof (register_loop_ok _ _ _ _ Hrun Hin) as Hsome.
    split; [by apply is_registered_true|].
    unfold unregister. simpl.
    rewrite bool_decide_eq_true_2 by done.
    eexists. split; [reflexivity|].
    apply is_registered_false. simpl. apply lookup_delete_eq.
Qed.

Lemma register_unregister_contract_witness :
  register (register site (OneModel TestModel) None ∅).2 (OneModel TestModel) None ∅
    = (Raise (already_registered_error TestModel),
       (register site (OneModel TestModel) None ∅).2) ∧
  unregister site (OneModel TestModel) = (Raise (not_registered_error TestModel), site).
Proof.
  split.
  - refine (proj1 (register_unregister_contract
                     (register site (OneModel TestModel) None ∅).2 TestModel None ∅ _) _).
    + apply (register_wf site _ (OneModel TestModel) None ∅
               (register site (OneModel TestModel) None ∅).1);
        [by destruct (register _ _ _ _) | apply site__init__wf].
    + vm_compute. reflexivity.
  - refine (proj1 (proj2 (register_unregister_contract site TestModel None ∅ _)) _).
    + apply site__init__wf.
    + vm_compute. reflexivity.
Defined.

(** The loop over a concatenation runs the second part from where the first
    left off, if the first did not raise. *)
Lemma register_loop_app (xs ys : list Model) (l : RegisterLocals) :
  register_loop (xs ++ ys) l =
    match register_loop xs l with
    | (Ok _, l') => register_loop ys l'
    | (Raise e, l') => (Raise e, l')
    end.
Proof.
  revert l. induction xs as [|m rest IH]; intros l; simpl; [done|].
  destruct (abstract (_meta m)); [done|].
  destruct (bool_decide (is_Some (registry l !! m))); [done|]. apply IH.
Qed.

(** What the loop leaves behind when every model is concrete, new and listed
    once: each model's class is synthesized from the class of the model
    before it (the first from the [view_class] the loop started with) and
    from [options] with that model's documentation written in. *)
Lemma register_loop_chain (xs : list Model) (l : RegisterLocals) :
  NoDup xs →
  (∀ m, m ∈ xs → abstract (_meta m) = false ∧ registry l !! m = None) →
  ∃ l', register_loop xs l = (Ok (), l') ∧
        (∀ m, m ∉ xs → registry l' !! m = registry l !! m) ∧
        (∀ (i : nat) m, xs !! i = Some m →
           ∃ base, registry l' !! m = Some (admin_class m base (options l)) ∧
                   match i with
                   | O => base = view_class l
                   | S j => ∃ m', xs !! j = Some m' ∧ registry l' !! m' = Some base
                   end) ∧
        options l' = from_option (with_doc (options l)) (options l) (last xs) ∧
        match last xs with
        | None => view_class l' = view_class l
        | Some m => registry l' !! m = Some (view_class l')
        end.
Proof.
  revert l. induction xs as [|m rest IH]; intros l Hnd Hfresh.
  - exists l. split; [done|]. split; [done|]. split; [|done].
    intros i m Hi. by rewrite lookup_nil in Hi.
  - apply NoDup_cons in Hnd as [Hm Hnd].
    destruct (Hfresh m) as [Habs Hnew]; [by left|].
    simpl. rewrite Habs, Hnew.
    rewrite bool_decide_eq_false_2 by by intros [? [=]].
    set (c := type (__name__ m +:+ "Admin") (view_class l)
                (<["__doc__" := PyStr (generate_docs m)]> (options l))).
    set (l1 := {| registry := <[m := c]> (registry l);
                  options := <["__doc__" := PyStr (generate_docs m)]> (options l);
                  view_class := c |}).
    destruct (IH l1 Hnd) as (l' & Hrun & Hout & Hin & Hopts & Hcls).
    { intros m' Hm'. destruct (Hfresh m') as [? ?]; [by right|]. split; [done|].
      simpl. rewrite lookup_insert_ne; [done|]. by intros ->. }
    assert (registry l' !! m = Some c) as Hmc.
    { rewrite (Hout m Hm). simpl. apply lookup_insert_eq. }
    exists l'. split; [done|]. split; [|split; [|split]].
    + intros m' Hm'. apply not_elem_of_cons in Hm' as [Hne Hm'].
      rewrite (Hout m' Hm'). simpl. by rewrite lookup_insert_ne.
    + intros [|i] m' Hi; simpl in Hi.
      * injection Hi as <-. exists (view_class l). split; [exact Hmc|done].
      * destruct (Hin i m' Hi) as (base & Hbase & Hprev).
        exists base. split.
        { rewrite Hbase. unfold admin_class, with_doc. simpl.
          by rewrite insert_insert_eq. }
        destruct i as [|j].
        -- exists m. split; [done|]. by rewrite Hprev.
        -- destruct Hprev as (m'' & Hj & Hm''). by exists m''.
    + rewrite Hopts, last_cons. simpl.
      destruct (last rest) as [m'|]; simpl; [|done].
      unfold with_doc. by rewrite insert_insert_eq.
    + rewrite last_cons.
      destruct (last rest) as [m'|]; simpl; [done|]. by rewrite Hcls.
Qed.

(** C9. When [register] is given a sequence whose earlier models are all
    concrete, new and listed once, and a later model is abstract or already
    registered (before the call or by an earlier position of the sequence),
    the call raises at that model and every earlier model stays registered:
    the registry has changed although the call failed. *)
Theorem register_iterable_not_atomic (self : RestFulAdminSite)
    (view_class : option ViewClass) (opts : gmap string PyObj)
    (earlier : list Model) (bad : Model) (later : list Model) :
  NoDup earlier →
  (∀ m, m ∈ earlier → abstract (_meta m) = false ∧ is_registered self m = false) →
  abstract (_meta bad) = true ∨ is_registered self bad = true ∨ bad ∈ earlier →
  ∃ self',
    register self (Iterable (earlier ++ bad :: later)) view_class opts
      = (Raise (if abstract (_meta bad) then abstract_model_error bad
                else already_registered_error bad), self') ∧
    (∀ m, m ∈ earlier → is_registered self' m = true) ∧
    (∀ m, m ∉ earlier → _registry self' !! m = _registry self !! m) ∧
    (earlier ≠ [] → _registry self' ≠ _registry self).
Proof.
  intros Hnd Hfresh Hbad. unfold register. simpl.
  rewrite register_loop_app.
  destruct (register_loop_chain earlier (register_locals self view_class opts) Hnd)
    as (l' & Hrun & Hout & _).
  { intros m Hm. destruct (Hfresh m Hm) as [? Hreg]. split; [done|].
    by apply is_registered_false in Hreg. }
  rewrite Hrun. simpl.
  assert (∀ m, m ∈ earlier → is_Some (registry l' !! m)) as Hearlier.
  { intros m Hm. by apply (register_loop_ok _ _ _ _ Hrun). }
  exists (with_registry self (registry l')).
  split; [|split; [|split]].
  - destruct (abstract (_meta bad)) eqn:Habs; [done|].
    rewrite bool_decide_eq_true_2; [done|].
    destruct Hbad as [? | [Hreg | Hin]]; [done| |by apply Hearlier].
    apply is_registered_true in Hreg.
    by apply (register_loop_keeps _ _ _ _ _ Hrun).
  - intros m Hm. apply is_registered_true. simpl. by apply Hearlier.
  - intros m Hm. simpl. by rewrite (Hout m Hm).
  - intros Hne. destruct earlier as [|m rest]; [done|]. simpl. intros Heq.
    destruct (Hfresh m) as [_ Hreg]; [by left|].
    apply is_registered_false in Hreg.
    destruct (Hearlier m) as [cls Hcls]; [by left|]. congruence.
Qed.

Lemma register_iterable_not_atomic_witness :
  ∃ self',
    register site (Iterable [TestModel; AbstractBase; User_model]) None ∅
      = (Raise (abstract_model_error AbstractBase), self') ∧
    is_registered self' TestModel = true ∧
    is_registered site TestModel = false.
Proof.
  destruct (register_iterable_not_atomic site None ∅ [TestModel] AbstractBase [User_model])
    as (self' & Hrun & Hearlier & _).
  - apply NoDup_singleton.
  - intros m Hm. apply list_elem_of_singleton in Hm as ->. split; reflexivity.
  - left. reflexivity.
  - exists self'. split; [exact Hrun|]. split; [|reflexivity].
    apply Hearlier. by left.
Defined.

(** C10. When [register] is given a sequence of concrete, new models, each
    listed once, the class stored for a model after the first has the class
    stored for the model before it as its base, and only the first has the
    supplied (or default) class as base; every class is built from the one
    [options] dictionary of the call, whose [__doc__] entry the loop
    overwrites with that model's documentation, and when the loop ends
    [options] carries the documentation of the last model and [view_class]
    is the class of the last model. *)
Theorem register_iterable_chains_classes (self : RestFulAdminSite)
    (supplied : option ViewClass) (opts : gmap string PyObj) (models : list Model) :
  NoDup models →
  (∀ m, m ∈ models → abstract (_meta m) = false ∧ is_registered self m = false) →
  ∃ l',
    register_loop models (register_locals self supplied opts) = (Ok (), l') ∧
    register self (Iterable models) supplied opts
      = (Ok (), with_registry self (registry l')) ∧
    (∀ (i : nat) m, models !! i = Some m →
       ∃ base,
         registry l' !! m
           = Some (type (__name__ m +:+ "Admin") base
                     (<["__doc__" := PyStr (generate_docs m)]> opts)) ∧
         match i with
         | O => base = default (default_view_class self) supplied
         | S j => ∃ m', models !! j = Some m' ∧ registry l' !! m' = Some base
         end) ∧
    options l' = from_option (with_doc opts) opts (last models) ∧
    match last models with
    | None => view_class l' = default (default_view_class self) supplied
    | Some m => registry l' !! m = Some (view_class l')
    end.
Proof.
  intros Hnd Hfresh.
  destruct (register_loop_chain models (register_locals self supplied opts) Hnd)
    as (l' & Hrun & _ & Hin & Hopts & Hcls).
  { intros m Hm. destruct (Hfresh m Hm) as [? Hreg]. split; [done|].
    by apply is_registered_false in Hreg. }
  exists l'. split; [done|]. split.
  { unfold register. simpl. by rewrite Hrun. }
  split; [exact Hin|]. split; [exact Hopts|exact Hcls].
Qed.

Lemma register_iterable_chains_classes_witness :
  ∃ l' base,
    register_loop [TestModel; User_model] (register_locals site None ∅) = (Ok (), l') ∧
    registry l' !! TestModel
      = Some (type "TestModelAdmin" RestFulAdminMVS
                {["__doc__" := PyStr (generate_docs TestModel)]}) ∧
    registry l' !! TestModel = Some base ∧
    registry l' !! User_model
      = Some (type "UserAdmin" base {["__doc__" := PyStr (generate_docs User_model)]}).
Proof.
  destruct (register_iterable_chains_classes site None ∅ [TestModel; User_model])
    as (l' & Hrun & _ & Hin & _).
  - apply NoDup_cons. split; [|apply NoDup_singleton].
    intros Hin. apply list_elem_of_singleton in Hin. discriminate Hin.
  - intros m Hm. apply elem_of_cons in Hm as [-> | Hm]; [split; reflexivity|].
    apply list_elem_of_singleton in Hm as ->. split; reflexivity.
  - destruct (Hin 0%nat TestModel eq_refl) as (base0 & Hfirst & ->).
    destruct (Hin 1%nat User_model eq_refl) as (base1 & Hsecond & m' & [= <-] & Hprev).
    exists l', base1. split; [exact Hrun|]. split; [exact Hfirst|].
    split; [exact Hprev|exact Hsecond].
Defined.

(** ** Permission resolver: precedence and dispatch *)

Section permission_more.
Context {V P : Type}.
Implicit Types (self : View V P) (request : Request P) (obj : option (Instance V)).

Lemma has_perm_action_verdict self a request obj (m : gmap string (Perm V P))
    (p : Perm V P) :
  method request ≠ "OPTIONS" → a ≠ "metadata" → a ≠ "" →
  effective_permission_map self a = Ok m → m !! a = Some p →
  _has_perm_action self (Some a) request obj = Ok (perm_verdict p a request obj).
Proof.
  intros Hm Hmeta He Hmap Hp. rewrite has_perm_action_lookup by done.
  rewrite Hmap. simpl. rewrite Hp. by destruct p.
Qed.

Lemma get_permission_map_override self a (p : Perm V P) :
  permission_map self !! a = Some p → get_permission_map self !! a = Some p.
Proof.
  intros Hov. unfold get_permission_map, dict_update.
  by apply lookup_union_Some_l.
Qed.

Lemma get_permission_map_default self a verb :
  permission_map self !! a = None → (a, verb) ∈ default_verbs →
  get_permission_map self !! a = Some (PermCode (_make_permission_key self verb)).
Proof.
  intros Hov Hin. unfold get_permission_map, dict_update.
  rewrite lookup_union_r by done.
  unfold default_verbs in Hin. rewrite !elem_of_cons in Hin.
  destruct Hin as [[= -> ->]|[[= -> ->]|[[= -> ->]|[[= -> ->]|[[= -> ->]|[[= -> ->]|Hin]]]]]];
    [reflexivity..|by apply elem_of_nil in Hin].
Qed.

End permission_more.

(** X1. A method wrapped by [action] is resolved by the permission the
    decorator was given, whatever the handler's permission map and the
    not-found default hold; wrapped without a permission, it is resolved by
    asking the caller's [has_perm] about [None]. *)
Theorem decorated_action_uses_its_permission {V P} (self : View V P) (a : string)
    (request : Request P) (obj : option (Instance V)) (p : Perm V P) (func : Attr V P) :
  method request ≠ "OPTIONS" → a ≠ "metadata" → a ≠ "" →
  view_attrs self !! a = Some (decorators.action p func) →
  _has_perm_action self (Some a) request obj = Ok (perm_verdict p a request obj) ∧
  (p = PermNone →
   _has_perm_action self (Some a) request obj = Ok (has_perm (user request) None)).
Proof.
  intros Hm Hmeta He Hattr.
  assert (_has_perm_action self (Some a) request obj
          = Ok (perm_verdict p a request obj)) as Hres.
  { apply (has_perm_action_verdict self a request obj
             (<[a := p]> (get_permission_map self))); try done.
    - unfold effective_permission_map, getattr. by rewrite Hattr.
    - apply lookup_insert_eq. }
  split; [exact Hres|]. intros ->. exact Hres.
Qed.

Lemma decorated_action_uses_its_permission_witness :
  _has_perm_action
    {| NOT_FOUND_PERMISSION_DEFAULT := true;
       permission_map := {["publish" := PermBool true]};
       _options := TestModel_meta;
       view_attrs := <["publish" := decorators.action PermNone plain_attr]>
                       RestFulAdminMVS_attrs |}
    (Some "publish") (request_of "POST" (user_with 7 ["models.add_testmodel"]) ∅) None
  = Ok false.
Proof.
  refine (proj1 (decorated_action_uses_its_permission _ "publish" _ None PermNone
                   plain_attr _ _ _ _)); [discriminate..|reflexivity].
Defined.

(** X2. For a method without annotation, an entry of the handler's
    [permission_map] decides the action in place of the default entry, and
    without such an entry the six default keys ask the caller for the model
    permission [app_label.verb_modelname]. *)
Theorem override_then_default_permission {V P} (self : View V P) (a : string)
    (request : Request P) (obj : option (Instance V)) :
  method request ≠ "OPTIONS" → a ≠ "metadata" → a ≠ "" →
  view_attrs self !! a = Some {| permission := None |} →
  (∀ p, permission_map self !! a = Some p →
        _has_perm_action self (Some a) request obj
          = Ok (perm_verdict p a request obj)) ∧
  (∀ verb, permission_map self !! a = None → (a, verb) ∈ default_verbs →
        _has_perm_action self (Some a) request obj
          = Ok (has_perm (user request)
                  (Some (app_label (_options self) +:+ "." +:+ verb +:+ "_"
                         +:+ model_name (_options self))))).
Proof.
  intros Hm Hmeta He Hattr.
  assert (effective_permission_map self a = Ok (get_permission_map self)) as Hmap.
  { unfold effective_permission_map, getattr. by rewrite Hattr. }
  split.
  - intros p Hov.
    apply (has_perm_action_verdict self a request obj _ p Hm Hmeta He Hmap).
    by apply get_permission_map_override.
  - intros verb Hov Hin.
    rewrite (has_perm_action_verdict self a request obj _ _ Hm Hmeta He Hmap
               (get_permission_map_default self a verb Hov Hin)).
    reflexivity.
Qed.

Lemma override_then_default_permission_witness :
  _has_perm_action (TestModel_view false) (Some "create")
    (request_of "POST" (user_with 7 ["models.add_testmodel"]) ∅) None = Ok true ∧
  _has_perm_action TestModel_guarded_view (Some "destroy")
    (request_of "DELETE" (user_with 7 ["models.add_testmodel"]) ∅) None = Ok false.
Proof.
  split.
  - refine (proj2 (override_then_default_permission (TestModel_view false) "create"
                     (request_of "POST" (user_with 7 ["models.add_testmodel"]) ∅)
                     None _ _ _ _) "add" _ _);
      [discriminate..|reflexivity|reflexivity|].
    unfold default_verbs. rewrite !elem_of_cons. right. right. by left.
  - refine (proj1 (override_then_default_permission TestModel_guarded_view "destroy"
                     (request_of "DELETE" (user_with 7 ["models.add_testmodel"]) ∅)
                     None _ _ _ _) (PermCode "models.delete_testmodel") _);
      [discriminate..|reflexivity|reflexivity].
Defined.

(** X3. An action that names no attribute of the handler is not answered by
    the not-found default: [getattr] raises [AttributeError], in the
    collection-level and in the object-level check alike. *)
Theorem action_without_attribute_raises {V P} (self : View V P) (a : string)
    (request : Request P) (instance : Instance V) :
  method request ≠ "OPTIONS" → a ≠ "metadata" → a ≠ "" →
  view_attrs self !! a = None →
  has_permission request self (Some a) = Raise (AttributeError a) ∧
  has_object_permission request self (Some a) instance = Raise (AttributeError a).
Proof.
  intros Hm Hmeta He Hattr. unfold has_permission, has_object_permission.
  by rewrite !unknown_action_raises.
Qed.

Lemma action_without_attribute_raises_witness :
  has_permission (request_of "POST" (user_with 7 []) ∅) (TestModel_view true)
    (Some "publish") = Raise (AttributeError "publish").
Proof.
  refine (proj1 (action_without_attribute_raises (TestModel_view true) "publish"
                   (request_of "POST" (user_with 7 []) ∅)
                   (record_of 1 "r" []) _ _ _ _));
    [discriminate..|reflexivity].
Defined.

(** X4. The object-level check can differ from the collection-level check
    only through a callable: when the entry the action resolves to is not a
    callable, or the action resolves to no entry, both checks give the same
    answer for every record. *)
Theorem object_check_differs_only_by_callable {V P} (self : View V P)
    (action : option string) (request : Request P) (instance : Instance V) :
  (∀ a m f, action = Some a → effective_permission_map self a = Ok m →
            m !! a ≠ Some (PermCallable f)) →
  has_object_permission request self action instance
    = has_permission request self action.
Proof.
  intros Hnc. unfold has_object_permission, has_permission, _has_perm_action.
  destruct (bool_decide (method request = "OPTIONS")
            || bool_decide (action = Some "metadata")); [done|].
  destruct action as [a|]; [|done].
  destruct (bool_decide (a = "")); [done|].
  destruct (effective_permission_map self a) as [m|e] eqn:Hmap; simpl; [|done].
  destruct (m !! a) as [[f| | |]|] eqn:Hp; try done.
  destruct (Hnc a m f eq_refl Hmap Hp).
Qed.

Lemma object_check_differs_only_by_callable_witness :
  has_object_permission (request_of "GET" (user_with 7 ["models.view_testmodel"]) ∅)
    (TestModel_view false) (Some "retrieve") (record_of 4 "r" [])
  = has_permission (request_of "GET" (user_with 7 ["models.view_testmodel"]) ∅)
      (TestModel_view false) (Some "retrieve").
Proof.
  apply object_check_differs_only_by_callable.
  intros a m f [= <-] [= <-]. vm_compute. discriminate.
Defined.

(** A callable entry does see the record: the owner rule admits the
    collection-level check and refuses another caller's record. *)
Example owner_only_sees_record :
  let self := {| NOT_FOUND_PERMISSION_DEFAULT := false;
                 permission_map := {["update" := owner_only]};
                 _options := TestModel_meta;
                 view_attrs := RestFulAdminMVS_attrs |} in
  let request := request_of "PUT" (user_with 7 []) ∅ in
  has_permission request self (Some "update") = Ok true ∧
  has_object_permission request self (Some "update") (record_of 7 "mine" []) = Ok true ∧
  has_object_permission request self (Some "update") (record_of 8 "theirs" []) = Ok false.
Proof. vm_compute. repeat split. Qed.
(** ** Diff helper: errors and accessors *)

Lemma diff_items_raise_inv {V} (py_ne : V → V → bool) (d2 : gmap string V)
    (l : list (string * V)) (e : exn) :
  diff_items py_ne d2 l = Raise e →
  ∃ k v, e = KeyError k ∧ (k, v) ∈ l ∧ d2 !! k = None.
Proof.
  induction l as [|[k v] rest IH]; simpl; [done|].
  destruct (d2 !! k) as [v2|] eqn:Hk.
  - destruct (diff_items py_ne d2 rest) as [ds|e'] eqn:Hrest; simpl; [done|].
    intros [= ->]. destruct (IH eq_refl) as (k' & v' & -> & Hin & Hk').
    exists k', v'. split; [done|]. split; [by right|done].
  - intros [= <-]. exists k, v. split; [done|]. split; [by left|done].
Qed.

Lemma keys_of_map_to_list {A} (m : gmap string A) (k : string) :
  k ∈ (map_to_list m).*1 ↔ is_Some (m !! k).
Proof.
  rewrite list_elem_of_fmap. split.
  - intros ([k' x] & -> & Hin). apply elem_of_map_to_list in Hin. by eexists.
  - intros [x Hx]. exists (k, x). split; [done|]. by apply elem_of_map_to_list.
Qed.

(** X5. Once an updated snapshot is stored, reading the diff raises exactly
    when that snapshot is not empty and lacks a field of the initial one, and
    what it raises is the [KeyError] of such a field. *)
Theorem diff_raises_exactly_on_missing_field {V} (py_ne : V → V → bool)
    (h : ModelDiffHelper V) (d2 : gmap string V) :
  _new_object h = Some d2 →
  ((∃ e, diff py_ne h = Raise e) ↔
   d2 ≠ ∅ ∧ ∃ k, is_Some (__initial h !! k) ∧ d2 !! k = None) ∧
  (∀ e, diff py_ne h = Raise e →
        ∃ k, e = KeyError k ∧ is_Some (__initial h !! k) ∧ d2 !! k = None).
Proof.
  intros Hnew.
  assert (∀ e, diff py_ne h = Raise e →
            d2 ≠ ∅ ∧ ∃ k, e = KeyError k ∧ is_Some (__initial h !! k)
                          ∧ d2 !! k = None) as Hinv.
  { intros e. unfold diff. rewrite Hnew.
    destruct (bool_decide (d2 = ∅)) eqn:Hempty; [done|].
    apply bool_decide_eq_false in Hempty.
    destruct (diff_items py_ne d2 (map_to_list (__initial h))) as [ds|e'] eqn:Hitems;
      simpl; [done|].
    intros [= ->]. split; [done|].
    destruct (diff_items_raise_inv _ _ _ _ Hitems) as (k & v & -> & Hin & Hk).
    exists k. split; [done|]. split; [|done].
    apply elem_of_map_to_list in Hin. by eexists. }
  split; [split|].
  - intros [e He]. destruct (Hinv e He) as (Hne & k & _ & Hk1 & Hk2). by eauto.
  - intros (Hne & k & Hk1 & Hk2).
    destruct (diff_raises_on_missing_field py_ne h d2 k Hnew Hne Hk1 Hk2)
      as (k' & Hraise & _). by eauto.
  - intros e He. by destruct (Hinv e He) as [_ ?].
Qed.

Lemma diff_raises_exactly_on_missing_field_witness :
  ∃ e, diff Z_ne {| __initial := list_to_map [("a", 1); ("b", 2)];
                    _new_object := Some (list_to_map [("a", 5)]) |} = Raise e.
Proof.
  apply (diff_raises_exactly_on_missing_field Z_ne
           {| __initial := list_to_map [("a", 1); ("b", 2)];
              _new_object := Some (list_to_map [("a", 5)]) |}
           (list_to_map [("a", 5)]) eq_refl).
  split.
  - intros Hempty. apply (f_equal (λ m : gmap string Z, m !! "a")) in Hempty.
    vm_compute in Hempty. discriminate Hempty.
  - exists "b". split; [by eexists|reflexivity].
Defined.

(** X6. When the updated snapshot is empty or has every field of the
    initial one, [changed_fields] lists, each once, exactly the fields whose
    two values are unequal, and [has_changed] says whether that list is
    non-empty. *)
Theorem changed_fields_exact {V} (py_ne : V → V → bool)
    (h : ModelDiffHelper V) (d2 : gmap string V) :
  _new_object h = Some d2 →
  d2 = ∅ ∨ (∀ k, is_Some (__initial h !! k) → is_Some (d2 !! k)) →
  ∃ fs, changed_fields py_ne h = Ok fs ∧ NoDup fs ∧
        (∀ k, k ∈ fs ↔ ∃ old new, __initial h !! k = Some old ∧ d2 !! k = Some new
                                  ∧ py_ne old new = true) ∧
        has_changed py_ne h = Ok (negb (bool_decide (fs = []))).
Proof.
  intros Hnew Hkeys.
  destruct (diff_lookup_spec py_ne h d2 Hnew Hkeys) as (m & Hdiff & Hm).
  unfold changed_fields, has_changed. rewrite Hdiff. simpl.
  eexists. split; [reflexivity|]. split; [apply NoDup_fst_map_to_list|]. split.
  - intros k. rewrite keys_of_map_to_list. split.
    + intros [[old new] Hk]. exists old, new. by apply Hm.
    + intros (old & new & Hk). exists (old, new). by apply Hm.
  - do 2 f_equal. apply bool_decide_ext. split.
    + intros ->. by rewrite map_to_list_empty.
    + intros Hnil. apply fmap_nil_inv in Hnil. by apply map_to_list_empty_iff.
Qed.

Lemma changed_fields_exact_witness :
  ∃ fs, changed_fields Z_ne
          {| __initial := list_to_map [("a", 1); ("b", 2)];
             _new_object := Some (list_to_map [("a", 1); ("b", 3)]) |} = Ok fs ∧
        "b" ∈ fs ∧ "a" ∉ fs.
Proof.
  destruct (changed_fields_exact Z_ne
              {| __initial := list_to_map [("a", 1); ("b", 2)];
                 _new_object := Some (list_to_map [("a", 1); ("b", 3)]) |}
              (list_to_map [("a", 1); ("b", 3)]) eq_refl)
    as (fs & Hfs & _ & Hin & _).
  - right. intros k [v Hv].
    destruct (decide (k = "a")) as [-> | Ha]; [by eexists|].
    destruct (decide (k = "b")) as [-> | Hb]; [by eexists|].
    simpl in Hv. rewrite !lookup_insert_ne in Hv by done. done.
  - exists fs. split; [exact Hfs|]. split.
    + apply Hin. exists 2, 3. repeat split.
    + intros Ha. apply Hin in Ha as (old & new & Hold & Hnew & Hne).
      vm_compute in Hold, Hnew. injection Hold as <-. injection Hnew as <-.
      discriminate Hne.
Defined.

(** X7. Whenever the diff can be read, [get_field_diff] answers with a pair
    exactly for the fields [changed_fields] lists, and with [None] for every
    other name, known to the record or not. *)
Theorem get_field_diff_matches_changed_fields {V} (py_ne : V → V → bool)
    (h : ModelDiffHelper V) (fs : list string) :
  changed_fields py_ne h = Ok fs →
  ∀ k, (k ∈ fs → ∃ pair, get_field_diff py_ne h k = Ok (Some pair)) ∧
       (k ∉ fs → get_field_diff py_ne h k = Ok None).
Proof.
  unfold changed_fields, get_field_diff.
  destruct (diff py_ne h) as [m|e]; simpl; [|done]. intros [= <-] k.
  rewrite keys_of_map_to_list. split.
  - intros [pair Hk]. exists pair. by rewrite Hk.
  - intros Hk. apply eq_None_not_Some in Hk. by rewrite Hk.
Qed.

Lemma get_field_diff_matches_changed_fields_witness :
  get_field_diff Z_ne
    (set_changed_model (__init__ (record_of 1 "r" [("a", 1); ("b", 2)]))
       (record_of 1 "r" [("a", 1); ("b", 3)])) "zzz" = Ok None.
Proof.
  refine (proj2 (get_field_diff_matches_changed_fields Z_ne _ ["b"] _ "zzz") _).
  - vm_compute. reflexivity.
  - intros Hin. apply list_elem_of_singleton in Hin. discriminate Hin.
Defined.

(** X8. Under a comparison for which no value differs from itself, a helper
    given the very record it was built from reports no change. *)
Theorem unchanged_record_has_no_diff {V} (py_ne : V → V → bool) (record : Instance V) :
  (∀ v, py_ne v v = false) →
  let h := set_changed_model (__init__ record) record in
  diff py_ne h = Ok ∅ ∧ has_changed py_ne h = Ok false ∧
  changed_fields py_ne h = Ok [].
Proof.
  intros Hrefl h.
  assert (diff py_ne h = Ok ∅) as Hdiff.
  { unfold h. rewrite set_changed_model_first.
    rewrite (diff_is_snapshot_diff py_ne _ (_dict record)); [|done|by right].
    f_equal. apply map_eq. intros k. unfold snapshot_diff.
    rewrite lookup_merge, lookup_empty. simpl.
    destruct (_dict record !! k) as [v|]; simpl; [|done]. by rewrite Hrefl. }
  unfold has_changed, changed_fields. rewrite Hdiff. simpl.
  split; [done|]. split; [done|]. by rewrite map_to_list_empty.
Qed.

Lemma unchanged_record_has_no_diff_witness :
  has_changed Z_ne
    (set_changed_model (__init__ (record_of 1 "r" [("a", 1)])) (record_of 1 "r" [("a", 1)]))
  = Ok false.
Proof.
  refine (proj1 (proj2 (unchanged_record_has_no_diff Z_ne (record_of 1 "r" [("a", 1)]) _))).
  intros v. unfold Z_ne. rewrite Z.eqb_refl. reflexivity.
Defined.
(** ** CRUD handler: [retrieve], [update] and how requests compose *)

Section crud_more_facts.
Context {V P : Type}.
Context (py_ne : V → V → bool).
Context (is_valid : P → option (gmap string V)).
Context (orm_create : gmap Z (Instance V) → gmap string V → result (Instance V)).
Context (is_valid_update : bool → Instance V → P → option (gmap string V)).
Context (orm_update : Instance V → gmap string V → result (Instance V)).
Implicit Types (self : Handler V P) (request : Request P) (w : World V).

Lemma get_object_run self request key w :
  get_object self request key w =
    match table w !! key with
    | None => (Raise Http404, w)
    | Some instance =>
        match has_object_permission request (view self) (action self) instance with
        | Ok true => (Ok instance, w)
        | Ok false => (Raise PermissionDenied, w)
        | Raise e => (Raise e, w)
        end
    end.
Proof. reflexivity. Qed.

Lemma get_object_ok_inv self request key w instance w1 :
  get_object self request key w = (Ok instance, w1) →
  w1 = w ∧ table w !! key = Some instance.
Proof.
  intros Hget. split.
  - rewrite <-(get_object_pure self request key w). by rewrite Hget.
  - apply (get_object_found self request). by rewrite Hget.
Qed.

(** What [update] does once it has its object, the payload is valid and the
    record is saved: the outcome of reading the changed fields decides. *)
Lemma update_run_saved self request key partial cache w instance validated instance' :
  get_object self request key w = (Ok instance, w) →
  is_valid_update partial instance (data request) = Some validated →
  orm_update instance validated = Ok instance' →
  update py_ne is_valid_update orm_update self request key partial cache w =
    let saved := {| table := <[pk instance' := instance']> (table w);
                    admin_log := admin_log w;
                    trace := trace w ++ [Saved instance'] |} in
    match changed_fields py_ne (set_changed_model (__init__ instance) instance') with
    | Raise e => (Raise e, saved)
    | Ok fields =>
        let entry :=
          {| user_id := user_pk (user request);
             content_type_id := content_type_pk self;
             object_id := pk instance';
             object_repr := ReprStr (str instance');
             action_flag := CHANGE;
             change_message :=
               Some (MsgChanged (verbose_name (_options (view self))) (str instance')
                       fields) |} in
        (Ok ({| status := 200; body := Some instance' |}, invalidate_prefetch cache),
         {| table := <[pk instance' := instance']> (table w);
            admin_log := admin_log w ++ [entry];
            trace := (trace w ++ [Saved instance']) ++ [Logged entry] |})
    end.
Proof.
  intros Hget Hvalid Hsave. unfold update, bind. rewrite Hget, Hvalid.
  unfold perform_update. rewrite Hsave. unfold lift_result.
  by destruct (changed_fields _ _).
Qed.

Lemma update_run_unsaved self request key partial cache w :
  (∀ instance, get_object self request key w = (Ok instance, w) →
     match is_valid_update partial instance (data request) with
     | None => True
     | Some validated => ∃ e, orm_update instance validated = Raise e
     end) →
  ∃ e, update py_ne is_valid_update orm_update self request key partial cache w
       = (Raise e, w).
Proof.
  intros Hstop. unfold update, bind.
  pose proof (get_object_pure self request key w) as Hpure.
  destruct (get_object self request key w) as [[instance|e] w1] eqn:Hget;
    simpl in Hpure; subst w1; [|by eauto].
  specialize (Hstop instance eq_refl).
  destruct (is_valid_update partial instance (data request)) as [validated|];
    [|by eexists].
  destruct Hstop as [e He]. unfold perform_update. rewrite He. by eexists.
Qed.


End crud_more_facts.




Lemma diff_raise_inv {V} (py_ne : V → V → bool) (h : ModelDiffHelper V)
    (d2 : gmap string V) (e : exn) :
  _new_object h = Some d2 → diff py_ne h = Raise e →
  ∃ k, e = KeyError k ∧ is_Some (__initial h !! k) ∧ d2 !! k = None.
Proof.
  intros Hnew. unfold diff. rewrite Hnew.
  destruct (bool_decide (d2 = ∅)); [done|].
  destruct (diff_items py_ne d2 (map_to_list (__initial h))) as [ds|e'] eqn:Hitems;
    simpl; [done|].
  intros [= ->].
  destruct (diff_items_raise_inv _ _ _ _ Hitems) as (k & v & -> & Hin & Hk).
  exists k. split; [done|]. split; [|done].
  apply elem_of_map_to_list in Hin. by eexists.
Qed.




Lemma update_raise_inv {V P} (py_ne : V → V → bool)
    (is_valid_update : bool → Instance V → P → option (gmap string V))
    (orm_update : Instance V → gmap string V → result (Instance V))
    (self : Handler V P) (request : Request P) (key : Z) (partial : bool)
    (cache : option (gmap string (list Z))) (w w' : World V) (e : exn) :
  update py_ne is_valid_update orm_update self request key partial cache w
    = (Raise e, w') →
  w' = w ∨
  ∃ instance instance' k,
    table w !! key = Some instance ∧
    e = KeyError k ∧
    is_Some (field_values instance !! k) ∧ field_values instance' !! k = None ∧
    table w' = <[pk instance' := instance']> (table w) ∧
    admin_log w' = admin_log w ∧
    trace w' = trace w ++ [Saved instance'].
Proof.
  intros Hrun.
  pose proof (get_object_pure self request key w) as Hpure.
  destruct (get_object self request key w) as [[instance|e0] w0] eqn:Hget;
    simpl in Hpure; subst w0.
  - destruct (is_valid_update partial instance (data request)) as [validated|] eqn:Hvalid.
    + destruct (orm_update instance validated) as [instance'|e1] eqn:Hsave.
      * rewrite (update_run_saved py_ne is_valid_update orm_update self request key
                   partial cache w instance validated instance' Hget Hvalid Hsave)
          in Hrun.
        cbv zeta in Hrun.
        destruct (changed_fields py_ne _) as [fs|e2] eqn:Hfields; [done|].
        injection Hrun as -> <-. right.
        unfold changed_fields in Hfields.
        destruct (diff py_ne _) as [m|e3] eqn:Hdiff; simpl in Hfields; [done|].
        injection Hfields as ->.
        destruct (diff_raise_inv py_ne (set_changed_model (__init__ instance) instance')
                    (field_values instance') e eq_refl Hdiff)
          as (k & -> & Hk1 & Hk2).
        exists instance, instance', k.
        split; [by apply (get_object_ok_inv self request key w instance w)|].
        done.
      * left. unfold update, bind in Hrun. rewrite Hget, Hvalid in Hrun.
        unfold perform_update in Hrun. rewrite Hsave in Hrun. by injection Hrun.
    + left. unfold update, bind in Hrun. rewrite Hget, Hvalid in Hrun.
      by injection Hrun.
  - left. unfold update, bind in Hrun. rewrite Hget in Hrun. by injection Hrun.
Qed.



(** ** CRUD handler: invariants and sequences of requests *)

Lemma destroy_run {V P} (self : Handler V P) (request : Request P) (key : Z)
    (w : World V) :
  destroy self request key w =
    match get_object self request key w with
    | (Ok instance, _) =>
        let entry :=
          {| user_id := user_pk (user request);
             content_type_id := content_type_pk self;
             object_id := pk instance;
             object_repr :=
               ReprMessage (MsgDeleted (verbose_name (_options (view self)))
                              (str instance));
             action_flag := DELETION;
             change_message := None |} in
        (Ok {| status := 204; body := None |},
         {| table := delete (pk instance) (table w);
            admin_log := admin_log w ++ [entry];
            trace := (trace w ++ [Logged entry]) ++ [Removed (pk instance)] |})
    | (Raise e, _) => (Raise e, w)
    end.
Proof.
  unfold destroy, bind.
  pose proof (get_object_pure self request key w) as Hpure.
  destruct (get_object self request key w) as [[instance|e] w0];
    simpl in Hpure; by subst w0.
Qed.



(** X13. A record destroyed once is gone for every later request: on a table
    keyed by primary key, after a destroy that returned, fetching the same
    key raises [Http404] for any handler and caller, so a second destroy
    raises it too and writes no second audit entry. *)
Theorem destroyed_record_is_gone {V P} (self self' : Handler V P)
    (request request' : Request P) (key : Z) (w w1 : World V) (r : Response V) :
  table_wf w →
  destroy self request key w = (Ok r, w1) →
  table w1 !! key = None ∧
  get_object self' request' key w1 = (Raise Http404, w1) ∧
  destroy self' request' key w1 = (Raise Http404, w1).
Proof.
  intros Hwf. rewrite destroy_run.
  destruct (get_object self request key w) as [[instance|e] w0] eqn:Hget; [|done].
  intros Hrun.
  destruct (get_object_ok_inv self request key w instance w0 Hget) as [_ Hfound].
  assert (table w1 !! key = None) as Hgone.
  { injection Hrun as _ <-. simpl. rewrite (Hwf key instance Hfound).
    apply lookup_delete_eq. }
  split; [exact Hgone|].
  assert (∀ w2 : World V, table w2 !! key = None →
            get_object self' request' key w2 = (Raise Http404, w2)) as Hmiss.
  { intros w2 Hnone. unfold get_object. by rewrite Hnone. }
  split; [by apply Hmiss|].
  rewrite destroy_run. by rewrite Hmiss.
Qed.

Lemma destroyed_record_is_gone_witness :
  let self := TestModel_handler TestModel_guarded_view (Some "destroy") in
  let request := request_of "DELETE" (user_with 7 ["models.delete_testmodel"]) ∅ in
  destroy self request 4 (destroy self request 4 demo_world).2
    = (Raise Http404, (destroy self request 4 demo_world).2).
Proof.
  intros self request.
  refine (proj2 (proj2 (destroyed_record_is_gone self self request request 4 demo_world
                          (destroy self request 4 demo_world).2
                          {| status := 204; body := None |} _ _))).
  - intros key instance Hk. simpl in Hk.
    apply lookup_singleton_Some in Hk as [<- <-]. reflexivity.
  - vm_compute. reflexivity.
Defined.

(** X14. What a create stored can be read back: after a create that
    returned, the response carries the new record, the table holds it under
    its key, and a retrieve of that key by any caller the object-level check
    admits answers 200 with that record and changes nothing. *)
Theorem created_record_can_be_retrieved {V P}
    (is_valid : P → option (gmap string V))
    (orm_create : gmap Z (Instance V) → gmap string V → result (Instance V))
    (self self' : Handler V P) (request request' : Request P)
    (w w1 : World V) (r : Response V) :
  create is_valid orm_create self request w = (Ok r, w1) →
  ∃ instance,
    r = {| status := 201; body := Some instance |} ∧
    table w1 !! pk instance = Some instance ∧
    (has_object_permission request' (view self') (action self') instance = Ok true →
     retrieve self' request' (pk instance) w1
       = (Ok {| status := 200; body := Some instance |}, w1)).
Proof.
  rewrite create_run.
  destruct (is_valid (data request)) as [validated|]; [|done].
  destruct (orm_create (table w) validated) as [instance|e]; [|done].
  intros [= <- <-]. exists instance. split; [done|].
  split; [apply lookup_insert_eq|].
  intros Hperm. unfold retrieve, bind, get_object. simpl.
  rewrite lookup_insert_eq. by rewrite Hperm.
Qed.

Lemma created_record_can_be_retrieved_witness :
  let w1 := (create demo_is_valid demo_orm_create
               (TestModel_handler (TestModel_view false) (Some "create"))
               (request_of "POST" (user_with 7 ["models.add_testmodel"])
                  {["field" := 5]}) demo_world).2 in
  ∃ instance,
    retrieve (TestModel_handler (TestModel_view false) (Some "retrieve"))
      (request_of "GET" (user_with 8 ["models.view_testmodel"]) ∅) (pk instance) w1
    = (Ok {| status := 200; body := Some instance |}, w1).
Proof.
  intros w1.
  destruct (created_record_can_be_retrieved demo_is_valid demo_orm_create
              (TestModel_handler (TestModel_view false) (Some "create"))
              (TestModel_handler (TestModel_view false) (Some "retrieve"))
              (request_of "POST" (user_with 7 ["models.add_testmodel"]) {["field" := 5]})
              (request_of "GET" (user_with 8 ["models.view_testmodel"]) ∅)
              demo_world w1
              {| status := 201;
                 body := Some {| pk := 2; str := "TestModel object";
                                 field_values := {["field" := 5]} |} |})
    as (instance & Hr & _ & Hget).
  - vm_compute. reflexivity.
  - exists instance. apply Hget. injection Hr as <-. vm_compute. reflexivity.
Defined.

(** X15. A destroy refused at the object level does nothing: when the
    collection-level check admits the caller but the object-level check
    refuses the fetched record, DELETE answers 403, and neither an audit
    entry nor the delete happens. *)
Theorem destroy_refused_for_record {V P} (self : Handler V P) (request : Request P)
    (key : Z) (w : World V) (instance : Instance V) :
  has_permission request (view self) (Some "destroy") = Ok true →
  table w !! key = Some instance →
  has_object_permission request (view self) (Some "destroy") instance = Ok false →
  delete_record self request key w = (Ok {| status := 403; body := None |}, w).
Proof.
  intros Hperm Hfound Hobj. unfold delete_record, dispatch. simpl. rewrite Hperm.
  rewrite destroy_run. unfold get_object. simpl. by rewrite Hfound, Hobj.
Qed.

Lemma destroy_refused_for_record_witness :
  let self := TestModel_handler
                {| NOT_FOUND_PERMISSION_DEFAULT := false;
                   permission_map := {["destroy" := owner_only]};
                   _options := TestModel_meta;
                   view_attrs := RestFulAdminMVS_attrs |} None in
  delete_record self (request_of "DELETE" (user_with 7 []) ∅) 4 demo_world
    = (Ok {| status := 403; body := None |}, demo_world).
Proof.
  intros self.
  apply (destroy_refused_for_record self (request_of "DELETE" (user_with 7 []) ∅) 4
           demo_world (record_of 4 "TestModel object (4)" [("field", 10)]));
    vm_compute; reflexivity.
Defined.

(** X16. A record request for a key the table lacks changes nothing: GET and
    DELETE, once the collection-level check admits the caller, answer 404,
    and an update raises [Http404]; the world is as before in each case. *)
Theorem missing_record_is_not_found {V P} (py_ne : V → V → bool)
    (is_valid_update : bool → Instance V → P → option (gmap string V))
    (orm_update : Instance V → gmap string V → result (Instance V))
    (self : Handler V P) (request : Request P) (key : Z) (partial : bool)
    (cache : option (gmap string (list Z))) (w : World V) :
  table w !! key = None →
  (has_permission request (view self) (Some "retrieve") = Ok true →
   get_record self request key w = (Ok {| status := 404; body := None |}, w)) ∧
  (has_permission request (view self) (Some "destroy") = Ok true →
   delete_record self request key w = (Ok {| status := 404; body := None |}, w)) ∧
  update py_ne is_valid_update orm_update self request key partial cache w
    = (Raise Http404, w).
Proof.
  intros Hnone.
  assert (∀ self' : Handler V P,
            get_object self' request key w = (Raise Http404, w)) as Hmiss.
  { intros self'. unfold get_object. by rewrite Hnone. }
  split; [|split].
  - intros Hperm. unfold get_record, dispatch. simpl. rewrite Hperm.
    unfold retrieve, bind. by rewrite Hmiss.
  - intros Hperm. unfold delete_record, dispatch. simpl. rewrite Hperm.
    rewrite destroy_run. by rewrite Hmiss.
  - unfold update, bind. by rewrite Hmiss.
Qed.

Lemma missing_record_is_not_found_witness :
  delete_record (TestModel_handler TestModel_guarded_view None)
    (request_of "DELETE" (user_with 7 ["models.delete_testmodel"]) ∅) 5 demo_world
  = (Ok {| status := 404; body := None |}, demo_world).
Proof.
  refine (proj1 (proj2 (missing_record_is_not_found Z_ne (λ _ _ payload, Some payload)
                          (λ instance validated, Ok instance)
                          (TestModel_handler TestModel_guarded_view None)
                          (request_of "DELETE"
                             (user_with 7 ["models.delete_testmodel"]) ∅)
                          5 false None demo_world _)) _);
    vm_compute; reflexivity.
Defined.

Lemma update_ok_inv {V P} (py_ne : V → V → bool)
    (is_valid_update : bool → Instance V → P → option (gmap string V))
    (orm_update : Instance V → gmap string V → result (Instance V))
    (self : Handler V P) (request : Request P) (key : Z) (partial : bool)
    (cache : option (gmap string (list Z))) (w w' : World V)
    (r : Response V * option (gmap string (list Z))) :
  update py_ne is_valid_update orm_update self request key partial cache w = (Ok r, w') →
  ∃ instance' entry,
    admin_log w' = admin_log w ++ [entry] ∧
    trace w' = trace w ++ [Saved instance'; Logged entry] ∧
    table w' = <[pk instance' := instance']> (table w) ∧
    r.1 = {| status := 200; body := Some instance' |} ∧
    action_flag entry = CHANGE ∧ object_id entry = pk instance'.
Proof.
  intros Hrun.
  pose proof (get_object_pure self request key w) as Hpure.
  destruct (get_object self request key w) as [[instance|e0] w0] eqn:Hget;
    simpl in Hpure; subst w0.
  - destruct (is_valid_update partial instance (data request)) as [validated|] eqn:Hvalid.
    + destruct (orm_update instance validated) as [instance'|e1] eqn:Hsave.
      * rewrite (update_run_saved py_ne is_valid_update orm_update self request key
                   partial cache w instance validated instance' Hget Hvalid Hsave)
          in Hrun.
        cbv zeta in Hrun.
        destruct (changed_fields py_ne _) as [fs|e2]; [|done].
        injection Hrun as <- <-. eexists instance', _. simpl.
        split; [reflexivity|]. split; [by rewrite <-app_assoc|]. done.
      * unfold update, bind in Hrun. rewrite Hget, Hvalid in Hrun.
        unfold perform_update in Hrun. by rewrite Hsave in Hrun.
    + unfold update, bind in Hrun. by rewrite Hget, Hvalid in Hrun.
  - unfold update, bind in Hrun. by rewrite Hget in Hrun.
Qed.

(** X17. The audit log only grows, by at most one entry per request and of
    the kind of the request: a create adds nothing or one ADDITION entry, an
    update nothing or one CHANGE entry, a destroy nothing or one DELETION
    entry; entries already written stay as they are. *)
Theorem audit_log_append_only {V P} (py_ne : V → V → bool)
    (is_valid : P → option (gmap string V))
    (orm_create : gmap Z (Instance V) → gmap string V → result (Instance V))
    (is_valid_update : bool → Instance V → P → option (gmap string V))
    (orm_update : Instance V → gmap string V → result (Instance V))
    (self : Handler V P) (request : Request P) (key : Z) (partial : bool)
    (cache : option (gmap string (list Z))) (w : World V) :
  let grows (flag : ActionFlag) (w' : World V) :=
    admin_log w' = admin_log w ∨
    ∃ entry, admin_log w' = admin_log w ++ [entry] ∧ action_flag entry = flag in
  grows ADDITION (create is_valid orm_create self request w).2 ∧
  grows CHANGE
    (update py_ne is_valid_update orm_update self request key partial cache w).2 ∧
  grows DELETION (destroy self request key w).2.
Proof.
  intros grows. unfold grows. split; [|split].
  - rewrite create_run.
    destruct (is_valid (data request)) as [validated|]; [|by left].
    destruct (orm_create (table w) validated) as [instance|e]; [|by left].
    right. by eexists.
  - destruct (update py_ne is_valid_update orm_update self request key partial cache w)
      as [[r|e] w'] eqn:Hrun; simpl.
    + destruct (update_ok_inv py_ne is_valid_update orm_update self request key
                  partial cache w w' r Hrun)
        as (instance' & entry & Hlog & _ & _ & _ & Hflag & _).
      right. by exists entry.
    + destruct (update_raise_inv py_ne is_valid_update orm_update self request
                  key partial cache w w' e Hrun)
        as [-> | (instance & instance' & k & _ & _ & _ & _ & _ & Hlog & _)];
        by left.
  - rewrite destroy_run.
    destruct (get_object self request key w) as [[instance|e] w0]; [|by left].
    right. by eexists.
Qed.

(** ** Registry: exact outcomes, frames and round trips *)

(** Entries of models the loop is not given stay as they are, whatever the
    outcome. *)
Lemma register_loop_frame (models : list Model) (l l' : RegisterLocals)
    (r : result unit) (model : Model) :
  register_loop models l = (r, l') → model ∉ models →
  registry l' !! model = registry l !! model.
Proof.
  revert l. induction models as [|m rest IH]; intros l Hrun Hout; simpl in Hrun.
  - by injection Hrun as _ <-.
  - apply not_elem_of_cons in Hout as [Hne Hout].
    destruct (abstract (_meta m)); [by injection Hrun as _ <-|].
    destruct (bool_decide (is_Some (registry l !! m))); [by injection Hrun as _ <-|].
    rewrite (IH _ Hrun Hout). simpl. by rewrite lookup_insert_ne.
Qed.

Lemma register_loop_ok_inv (models : list Model) (l l' : RegisterLocals) :
  register_loop models l = (Ok (), l') →
  NoDup models ∧
  ∀ m, m ∈ models → abstract (_meta m) = false ∧ registry l !! m = None.
Proof.
  revert l. induction models as [|m rest IH]; intros l Hrun; simpl in Hrun.
  - split; [apply NoDup_nil_2|]. intros m Hm. by apply elem_of_nil in Hm.
  - destruct (abstract (_meta m)) eqn:Habs; [done|].
    destruct (bool_decide (is_Some (registry l !! m))) eqn:Hreg; [done|].
    apply bool_decide_eq_false in Hreg. apply eq_None_not_Some in Hreg.
    destruct (IH _ Hrun) as [Hnd Hrest]. simpl in Hrest.
    assert (m ∉ rest) as Hm.
    { intros Hin. destruct (Hrest m Hin) as [_ Hnone].
      by rewrite lookup_insert_eq in Hnone. }
    split; [by apply NoDup_cons|].
    intros m' Hm'. apply elem_of_cons in Hm' as [-> | Hm']; [done|].
    destruct (Hrest m' Hm') as [? Hnone]. split; [done|].
    rewrite lookup_insert_ne in Hnone; [done|]. by intros ->.
Qed.

Lemma unregister_loop_frame (models : list Model) (reg reg' : gmap Model ViewClass)
    (r : result unit) (model : Model) :
  unregister_loop models reg = (r, reg') → model ∉ models →
  reg' !! model = reg !! model.
Proof.
  revert reg. induction models as [|m rest IH]; intros reg Hrun Hout; simpl in Hrun.
  - by injection Hrun as _ <-.
  - apply not_elem_of_cons in Hout as [Hne Hout].
    destruct (bool_decide (is_Some (reg !! m))); [|by injection Hrun as _ <-].
    rewrite (IH _ Hrun Hout). by rewrite lookup_delete_ne.
Qed.

(** Once removed by the loop, a model stays removed. *)
Lemma unregister_loop_gone (models : list Model) (reg reg' : gmap Model ViewClass)
    (r : result unit) (model : Model) :
  unregister_loop models reg = (r, reg') → reg !! model = None →
  reg' !! model = None.
Proof.
  revert reg. induction models as [|m rest IH]; intros reg Hrun Hnone; simpl in Hrun.
  - by injection Hrun as _ <-.
  - destruct (bool_decide (is_Some (reg !! m))); [|by injection Hrun as _ <-].
    apply (IH _ Hrun). destruct (decide (m = model)) as [-> | Hne].
    + apply lookup_delete_eq.
    + by rewrite lookup_delete_ne.
Qed.

Lemma unregister_loop_ok (models : list Model) (reg : gmap Model ViewClass) :
  NoDup models → (∀ m, m ∈ models → is_Some (reg !! m)) →
  ∃ reg', unregister_loop models reg = (Ok (), reg') ∧
          ∀ m, m ∈ models → reg' !! m = None.
Proof.
  revert reg. induction models as [|m rest IH]; intros reg Hnd Hin.
  - exists reg. split; [done|]. intros m Hm. by apply elem_of_nil in Hm.
  - apply NoDup_cons in Hnd as [Hm Hnd]. simpl.
    rewrite bool_decide_eq_true_2 by (apply Hin; by left).
    destruct (IH (delete m reg) Hnd) as (reg' & Hrun & Hgone).
    { intros m' Hm'. rewrite lookup_delete_ne; [apply Hin; by right|].
      by intros ->. }
    exists reg'. split; [done|].
    intros m' Hm'. apply elem_of_cons in Hm' as [-> | Hm']; [|by apply Hgone].
    apply (unregister_loop_gone _ _ _ _ _ Hrun). apply lookup_delete_eq.
Qed.

Lemma unregister_loop_ok_inv (models : list Model) (reg reg' : gmap Model ViewClass) :
  unregister_loop models reg = (Ok (), reg') →
  NoDup models ∧ ∀ m, m ∈ models → is_Some (reg !! m).
Proof.
  revert reg. induction models as [|m rest IH]; intros reg Hrun; simpl in Hrun.
  - split; [apply NoDup_nil_2|]. intros m Hm. by apply elem_of_nil in Hm.
  - destruct (bool_decide (is_Some (reg !! m))) eqn:Hreg; [|done].
    apply bool_decide_eq_true in Hreg.
    destruct (IH _ Hrun) as [Hnd Hrest].
    assert (m ∉ rest) as Hm.
    { intros Hin. destruct (Hrest m Hin) as [c Hc].
      by rewrite lookup_delete_eq in Hc. }
    split; [by apply NoDup_cons|].
    intros m' Hm'. apply elem_of_cons in Hm' as [-> | Hm']; [done|].
    destruct (Hrest m' Hm') as [c Hc].
    apply lookup_delete_Some in Hc as [_ Hc]. by eexists.
Qed.

Lemma unregister_loop_app (xs ys : list Model) (reg : gmap Model ViewClass) :
  unregister_loop (xs ++ ys) reg =
    match unregister_loop xs reg with
    | (Ok _, reg') => unregister_loop ys reg'
    | (Raise e, reg') => (Raise e, reg')
    end.
Proof.
  revert reg. induction xs as [|m rest IH]; intros reg; simpl; [done|].
  destruct (bool_decide (is_Some (reg !! m))); [apply IH|done].
Qed.

(** X18. [register] returns normally exactly when the models it is given
    are listed once each, none is abstract and none is registered yet; in
    particular an empty sequence registers nothing and returns. *)
Theorem register_returns_iff (self : RestFulAdminSite) (mi : ModelOrIterable)
    (supplied : option ViewClass) (opts : gmap string PyObj) :
  (register self mi supplied opts).1 = Ok () ↔
  NoDup (as_iterable mi) ∧
  ∀ m, m ∈ as_iterable mi → abstract (_meta m) = false ∧ is_registered self m = false.
Proof.
  unfold register. split.
  - destruct (register_loop _ _) as [r l'] eqn:Hrun. simpl. intros ->.
    destruct (register_loop_ok_inv _ _ _ Hrun) as [Hnd Hall].
    split; [done|]. intros m Hm. destruct (Hall m Hm) as [? Hnone].
    split; [done|]. by apply is_registered_false.
  - intros [Hnd Hall].
    destruct (register_loop_chain (as_iterable mi) (register_locals self supplied opts)
                Hnd) as (l' & Hrun & _).
    { intros m Hm. destruct (Hall m Hm) as [? Hreg]. split; [done|].
      by apply is_registered_false in Hreg. }
    by rewrite Hrun.
Qed.

(** X19. [unregister] returns normally exactly when the models it is given
    are listed once each and all registered. *)
Theorem unregister_returns_iff (self : RestFulAdminSite) (mi : ModelOrIterable) :
  (unregister self mi).1 = Ok () ↔
  NoDup (as_iterable mi) ∧ ∀ m, m ∈ as_iterable mi → is_registered self m = true.
Proof.
  unfold unregister. split.
  - destruct (unregister_loop _ _) as [r reg'] eqn:Hrun. simpl. intros ->.
    destruct (unregister_loop_ok_inv _ _ _ Hrun) as [Hnd Hall].
    split; [done|]. intros m Hm. apply is_registered_true. by apply Hall.
  - intros [Hnd Hall].
    destruct (unregister_loop_ok (as_iterable mi) (_registry self) Hnd)
      as (reg' & Hrun & _).
    { intros m Hm. apply is_registered_true. by apply Hall. }
    by rewrite Hrun.
Qed.

(** X20. [register] and [unregister] touch only the entries of the models
    they are given: whether they return or raise, every other model's entry,
    the extra URL patterns and the default handler class are as before. *)
Theorem registry_calls_frame (self : RestFulAdminSite) (mi : ModelOrIterable)
    (supplied : option ViewClass) (opts : gmap string PyObj) (model : Model) :
  model ∉ as_iterable mi →
  let after_register := (register self mi supplied opts).2 in
  let after_unregister := (unregister self mi).2 in
  _registry after_register !! model = _registry self !! model ∧
  _registry after_unregister !! model = _registry self !! model ∧
  _url_patterns after_register = _url_patterns self ∧
  _url_patterns after_unregister = _url_patterns self ∧
  default_view_class after_register = default_view_class self ∧
  default_view_class after_unregister = default_view_class self.
Proof.
  intros Hout. cbv zeta. unfold register, unregister.
  destruct (register_loop _ _) as [r l'] eqn:Hrun.
  destruct (unregister_loop _ _) as [r' reg'] eqn:Hrun'. simpl.
  split; [exact (register_loop_frame _ _ _ _ _ Hrun Hout)|].
  split; [exact (unregister_loop_frame _ _ _ _ _ Hrun' Hout)|]. done.
Qed.

Lemma registry_calls_frame_witness :
  _registry (register (register site (OneModel TestModel) None ∅).2
               (Iterable [User_model; AbstractBase]) None ∅).2 !! TestModel
  = _registry (register site (OneModel TestModel) None ∅).2 !! TestModel.
Proof.
  refine (proj1 (registry_calls_frame (register site (OneModel TestModel) None ∅).2
                   (Iterable [User_model; AbstractBase]) None ∅ TestModel _)).
  simpl. intros Hin. apply elem_of_cons in Hin as [Hin | Hin]; [discriminate Hin|].
  apply list_elem_of_singleton in Hin. discriminate Hin.
Defined.

(** X21. Unregistering a sequence is not atomic either: when the earlier
    models are registered and listed once and a later one is not registered
    (or was removed by an earlier position), the call raises [NotRegistered]
    at that model and the earlier models stay removed. *)
Theorem unregister_iterable_not_atomic (self : RestFulAdminSite)
    (earlier : list Model) (bad : Model) (later : list Model) :
  NoDup earlier →
  (∀ m, m ∈ earlier → is_registered self m = true) →
  is_registered self bad = false ∨ bad ∈ earlier →
  ∃ self',
    unregister self (Iterable (earlier ++ bad :: later))
      = (Raise (not_registered_error bad), self') ∧
    (∀ m, m ∈ earlier → is_registered self' m = false) ∧
    (∀ m, m ∉ earlier → _registry self' !! m = _registry self !! m).
Proof.
  intros Hnd Hall Hbad. unfold unregister. simpl.
  rewrite unregister_loop_app.
  destruct (unregister_loop_ok earlier (_registry self) Hnd) as (reg' & Hrun & Hgone).
  { intros m Hm. apply is_registered_true. by apply Hall. }
  rewrite Hrun. simpl.
  assert (reg' !! bad = None) as Hnone.
  { destruct Hbad as [Hreg | Hin]; [|by apply Hgone].
    apply is_registered_false in Hreg.
    by apply (unregister_loop_gone _ _ _ _ _ Hrun). }
  rewrite bool_decide_eq_false_2 by (rewrite Hnone; by intros [? [=]]).
  eexists. split; [reflexivity|]. split.
  - intros m Hm. apply is_registered_false. simpl. by apply Hgone.
  - intros m Hm. simpl. exact (unregister_loop_frame _ _ _ _ _ Hrun Hm).
Qed.

Lemma unregister_iterable_not_atomic_witness :
  let self := (register site (Iterable [TestModel; User_model]) None ∅).2 in
  ∃ self',
    unregister self (Iterable [TestModel; TestModel; User_model])
      = (Raise (not_registered_error TestModel), self') ∧
    is_registered self' TestModel = false ∧
    is_registered self' User_model = true.
Proof.
  intros self.
  destruct (unregister_iterable_not_atomic self [TestModel] TestModel [User_model])
    as (self' & Hrun & Hgone & Hframe).
  - apply NoDup_singleton.
  - intros m Hm. apply list_elem_of_singleton in Hm as ->. vm_compute. reflexivity.
  - right. by left.
  - exists self'. split; [exact Hrun|]. split; [apply Hgone; by left|].
    apply is_registered_true. rewrite Hframe.
    + vm_compute. by eexists.
    + intros Hin. apply list_elem_of_singleton in Hin. discriminate Hin.
Defined.

(** X22. Unregistering what a call just registered restores the site: after
    a [register] that returned, [unregister] with the same argument returns
    and leaves exactly the site the [register] started from. *)
Theorem register_then_unregister_restores (self self1 : RestFulAdminSite)
    (mi : ModelOrIterable) (supplied : option ViewClass) (opts : gmap string PyObj) :
  register self mi supplied opts = (Ok (), self1) →
  unregister self1 mi = (Ok (), self).
Proof.
  unfold register.
  destruct (register_loop _ _) as [r l'] eqn:Hrun. intros [= -> <-].
  destruct (register_loop_ok_inv _ _ _ Hrun) as [Hnd Hfresh].
  unfold unregister. simpl.
  destruct (unregister_loop_ok (as_iterable mi) (registry l') Hnd)
    as (reg' & Hrun' & Hgone).
  { intros m Hm. by apply (register_loop_ok _ _ _ _ Hrun). }
  rewrite Hrun'. f_equal.
  replace reg' with (_registry self); [by destruct self|].
  apply map_eq. intros m.
  destruct (decide (m ∈ as_iterable mi)) as [Hin | Hout].
  - rewrite (Hgone m Hin). by destruct (Hfresh m Hin) as [_ ?].
  - rewrite (unregister_loop_frame _ _ _ _ _ Hrun' Hout).
    symmetry. exact (register_loop_frame _ _ _ _ _ Hrun Hout).
Qed.

Lemma register_then_unregister_restores_witness :
  unregister (register site (Iterable [TestModel; User_model]) None ∅).2
    (Iterable [TestModel; User_model]) = (Ok (), site).
Proof.
  apply (register_then_unregister_restores site _ _ None ∅).
  vm_compute. reflexivity.
Defined.

(** X23. No abstract model is ever registered: on every site built from a
    fresh one by calls of [register] and [unregister], returning or raising,
    a registered model is concrete. *)
Theorem abstract_model_never_registered (self : RestFulAdminSite) (model : Model) :
  reachable self → is_registered self model = true → abstract (_meta model) = false.
Proof.
  intros Hreach Hreg. apply is_registered_true in Hreg as [cls Hcls].
  exact (reachable_wf self Hreach model cls Hcls).
Qed.

Lemma abstract_model_never_registered_witness :
  abstract (_meta TestModel) = false.
Proof.
  apply (abstract_model_never_registered
           (register site (Iterable [TestModel; AbstractBase]) None ∅).2 TestModel).
  - apply reachable_register, reachable_init.
  - vm_compute. reflexivity.
Defined.

(** ** Class objects: lookup along bases and assignment *)

Section class_store.
Import Objects.
Implicit Types (store : list ClassObj) (cls root : nat) (name : string).

Lemma class_at_lt store cls c : class_at store cls = Some c → (cls < length store)%nat.
Proof.
  induction store as [|c0 older IH]; simpl; [done|].
  case_bool_decide; [lia|]. intros Hc. specialize (IH Hc). lia.
Qed.

Lemma class_at_is_Some store cls : (cls < length store)%nat → is_Some (class_at store cls).
Proof.
  induction store as [|c0 older IH]; simpl; [lia|]. intros Hlt.
  case_bool_decide; [by eexists|]. apply IH. lia.
Qed.

Lemma class_at_cons_old store c0 cls :
  (cls < length store)%nat → class_at (c0 :: store) cls = class_at store cls.
Proof. intros Hlt. simpl. rewrite bool_decide_eq_false_2; [done|lia]. Qed.

Lemma class_at_cons_new store c0 : class_at (c0 :: store) (length store) = Some c0.
Proof. simpl. by rewrite bool_decide_eq_true_2. Qed.

Lemma mro_lookup_cons_old store c0 cls name :
  (cls < length store)%nat → mro_lookup (c0 :: store) cls name = mro_lookup store cls name.
Proof. intros Hlt. simpl. rewrite bool_decide_eq_false_2; [done|lia]. Qed.

Lemma base_is_older store cls c base :
  store_wf store → class_at store cls = Some c → cls_base c = Some base →
  (base < cls)%nat.
Proof.
  induction store as [|c0 older IH]; simpl; [done|]. intros [Hbase Hwf].
  case_bool_decide as Hcls.
  - intros [= ->] Hb. rewrite Hb in Hbase. lia.
  - by apply IH.
Qed.

(** One step of the lookup, read off the class itself. *)
Lemma mro_lookup_step store cls name :
  store_wf store →
  mro_lookup store cls name =
    match class_at store cls with
    | None => None
    | Some c =>
        match cls_dict c !! name with
        | Some v => Some v
        | None =>
            match cls_base c with
            | Some base => mro_lookup store base name
            | None => None
            end
        end
    end.
Proof.
  induction store as [|c0 older IH]; simpl; [done|]. intros [Hbase Hwf].
  case_bool_decide as Hcls.
  - destruct (cls_dict c0 !! name); [done|].
    destruct (cls_base c0) as [base|]; [|done].
    rewrite bool_decide_eq_false_2; [done|lia].
  - rewrite (IH Hwf). destruct (class_at older cls) as [c|] eqn:Hc; [|done].
    destruct (cls_dict c !! name); [done|].
    destruct (cls_base c) as [base|] eqn:Hb; [|done].
    rewrite bool_decide_eq_false_2; [done|].
    pose proof (base_is_older older cls c base Hwf Hc Hb).
    pose proof (class_at_lt _ _ _ Hc). lia.
Qed.

Lemma length_setattr store cls name v : length (setattr store cls name v) = length store.
Proof.
  induction store as [|c0 older IH]; simpl; [done|].
  case_bool_decide; simpl; [done|]. by rewrite IH.
Qed.

Lemma store_wf_setattr store cls name v :
  store_wf store → store_wf (setattr store cls name v).
Proof.
  induction store as [|c0 older IH]; simpl; [done|]. intros [Hbase Hwf].
  case_bool_decide; simpl; [done|]. rewrite length_setattr. by split; [|apply IH].
Qed.

Lemma class_at_setattr store x name v cls :
  class_at (setattr store x name v) cls =
    if bool_decide (cls = x) then
      (λ c, {| cls_name := cls_name c; cls_base := cls_base c;
               cls_dict := <[name := v]> (cls_dict c) |}) <$> class_at store x
    else class_at store cls.
Proof.
  induction store as [|c0 older IH]; simpl; [by case_bool_decide|].
  destruct (decide (x = length older)) as [-> | Hx].
  - rewrite (bool_decide_eq_true_2 (length older = length older)) by done. simpl.
    destruct (decide (cls = length older)) as [-> | Hcls].
    + by rewrite !bool_decide_eq_true_2.
    + by rewrite !bool_decide_eq_false_2.
  - rewrite (bool_decide_eq_false_2 (x = length older)) by done. simpl.
    rewrite length_setattr, IH.
    destruct (decide (cls = length older)) as [-> | Hcls].
    + rewrite bool_decide_eq_true_2 by done.
      rewrite bool_decide_eq_false_2; [done|]. by intros <-.
    + by rewrite (bool_decide_eq_false_2 (cls = length older)).
Qed.

(** Two sound stores that hold the same classes up to [cls] resolve every
    attribute of [cls] alike. *)
Lemma mro_lookup_ext store store' cls name :
  store_wf store → store_wf store' →
  (∀ id, (id ≤ cls)%nat → class_at store' id = class_at store id) →
  mro_lookup store' cls name = mro_lookup store cls name.
Proof.
  intros Hwf Hwf'. induction (lt_wf cls) as [cls _ IH]. intros Hsame.
  rewrite (mro_lookup_step store), (mro_lookup_step store') by done.
  rewrite Hsame by done.
  destruct (class_at store cls) as [c|] eqn:Hc; [|done].
  destruct (cls_dict c !! name); [done|].
  destruct (cls_base c) as [base|] eqn:Hb; [|done].
  pose proof (base_is_older store cls c base Hwf Hc Hb) as Hlt.
  apply IH; [done|]. intros id Hid. apply Hsame. lia.
Qed.

(** Assigning [name] on class [x] changes what a class resolves [name'] to
    only by making it the assigned value. *)
Lemma mro_lookup_setattr store x name v cls name' :
  store_wf store →
  mro_lookup (setattr store x name v) cls name' = mro_lookup store cls name' ∨
  (name' = name ∧ mro_lookup (setattr store x name v) cls name' = Some v).
Proof.
  intros Hwf. induction (lt_wf cls) as [cls _ IH].
  rewrite (mro_lookup_step store) by done.
  rewrite (mro_lookup_step (setattr store x name v)) by by apply store_wf_setattr.
  rewrite class_at_setattr.
  destruct (decide (cls = x)) as [-> | Hcls].
  - rewrite bool_decide_eq_true_2 by done.
    destruct (class_at store x) as [c|] eqn:Hc; simpl; [|by left].
    destruct (decide (name' = name)) as [-> | Hname].
    + rewrite lookup_insert_eq. by right.
    + rewrite lookup_insert_ne by done.
      destruct (cls_dict c !! name'); [by left|].
      destruct (cls_base c) as [base|] eqn:Hb; [|by left].
      apply IH. by eapply base_is_older.
  - rewrite bool_decide_eq_false_2 by done.
    destruct (class_at store cls) as [c|] eqn:Hc; [|by left].
    destruct (cls_dict c !! name'); [by left|].
    destruct (cls_base c) as [base|] eqn:Hb; [|by left].
    apply IH. by eapply base_is_older.
Qed.

Lemma mro_lookup_setattr_self store x name v :
  store_wf store → is_Some (class_at store x) →
  mro_lookup (setattr store x name v) x name = Some v.
Proof.
  intros Hwf [c Hc].
  rewrite mro_lookup_step by by apply store_wf_setattr.
  rewrite class_at_setattr, bool_decide_eq_true_2 by done.
  rewrite Hc. simpl. by rewrite lookup_insert_eq.
Qed.

Lemma mro_lookup_Some_class store cls name v :
  store_wf store → mro_lookup store cls name = Some v → is_Some (class_at store cls).
Proof.
  intros Hwf. rewrite mro_lookup_step by done.
  destruct (class_at store cls); [by eexists|done].
Qed.

Lemma chain_lacks_ge store name root cls :
  chain_lacks store name root cls → (root ≤ cls)%nat.
Proof. induction 1; lia. Qed.

Lemma chain_lacks_trans store name root mid cls :
  chain_lacks store name mid cls → chain_lacks store name root mid →
  chain_lacks store name root cls.
Proof.
  intros Hup Hdown. induction Hup as [|cls base c Hlt Hc Hd Hb Hup IH]; [done|].
  apply (chain_step _ _ _ cls base c); try done.
  apply chain_lacks_ge in Hdown. lia.
Qed.

Lemma chain_lacks_lookup store name root cls :
  store_wf store → chain_lacks store name root cls →
  mro_lookup store cls name = mro_lookup store root name.
Proof.
  intros Hwf. induction 1 as [|cls base c Hlt Hc Hd Hb Hup IH]; [done|].
  rewrite mro_lookup_step by done. by rewrite Hc, Hd, Hb.
Qed.

(** Assigning on the root, or extending the store, keeps a chain. *)
Lemma chain_lacks_setattr_root store name root cls name' v :
  chain_lacks store name root cls →
  chain_lacks (setattr store root name' v) name root cls.
Proof.
  induction 1 as [|cls base c Hlt Hc Hd Hb Hup IH]; [apply chain_root|].
  apply (chain_step _ _ _ cls base c); try done.
  rewrite class_at_setattr, bool_decide_eq_false_2; [done|lia].
Qed.

Lemma chain_lacks_same_classes store store' name root cls :
  (∀ id, (id ≤ cls)%nat → class_at store' id = class_at store id) →
  store_wf store →
  chain_lacks store name root cls → chain_lacks store' name root cls.
Proof.
  intros Hsame Hwf Hchain.
  induction Hchain as [|cls base c Hlt Hc Hd Hb Hup IH]; [apply chain_root|].
  apply (chain_step _ _ _ cls base c); try done.
  - by rewrite Hsame.
  - apply IH. intros id Hid. apply Hsame.
    pose proof (base_is_older store cls c base Hwf Hc Hb). lia.
Qed.

End class_store.


(** ** [get_urls]: what it assigns to the handler classes *)

Section get_urls_facts.
Import Objects.
Context {Router : Type}.
Context (router_register :
           Router → list ClassObj → string → nat → option string → result Router).
Implicit Types (store : list ClassObj) (items : list (Model * nat)) (router : Router).

Lemma class_served_setattr store x name v cls :
  store_wf store → v ≠ PyNone → class_served store cls →
  class_served (setattr store x name v) cls.
Proof.
  intros Hwf Hv (q & s & Hq & Hqn & Hs & Hsn).
  destruct (mro_lookup_setattr store x name v cls "queryset" Hwf) as [Hq' | [_ Hq']];
    destruct (mro_lookup_setattr store x name v cls "serializer_class" Hwf)
      as [Hs' | [_ Hs']].
  - exists q, s. by rewrite Hq', Hs'.
  - exists q, v. by rewrite Hq', Hs'.
  - exists v, s. by rewrite Hq', Hs'.
  - exists v, v. by rewrite Hq', Hs'.
Qed.

(** One item of the loop: the store it leaves, and what holds of it. *)
Lemma get_urls_item store model view_set (queryset serializer_class : AttrVal) :
  store_wf store →
  getattr store view_set "queryset" = Ok queryset →
  let store1 := match queryset with
                | PyNone => setattr store view_set "queryset" (AllObjects model)
                | _ => store
                end in
  getattr store1 view_set "serializer_class" = Ok serializer_class →
  let store2 := match serializer_class with
                | PyNone =>
                    setattr store1 view_set "serializer_class"
                      (ModelSerializerClass (__name__ model +:+ "ModelSerializer") model)
                | _ => store1
                end in
  store_wf store2 ∧ class_served store2 view_set ∧
  (∀ cls, class_served store cls → class_served store2 cls).
Proof.
  intros Hwf Hq store1 Hs store2.
  assert (store_wf store1) as Hwf1.
  { unfold store1. destruct queryset; try done. by apply store_wf_setattr. }
  assert (store_wf store2) as Hwf2.
  { unfold store2. destruct serializer_class; try done. by apply store_wf_setattr. }
  assert (∀ cls, class_served store cls → class_served store1 cls) as Hkeep1.
  { intros cls Hcls. unfold store1. destruct queryset; try done.
    by apply class_served_setattr. }
  assert (∀ cls, class_served store1 cls → class_served store2 cls) as Hkeep2.
  { intros cls Hcls. unfold store2. destruct serializer_class; try done.
    by apply class_served_setattr. }
  split; [done|]. split; [|by auto].
  unfold getattr in Hq, Hs.
  destruct (mro_lookup store view_set "queryset") as [q|] eqn:Hq0; [|done].
  injection Hq as ->.
  destruct (mro_lookup store1 view_set "serializer_class") as [s|] eqn:Hs0; [|done].
  injection Hs as ->.
  assert (∃ q1, mro_lookup store1 view_set "queryset" = Some q1 ∧ q1 ≠ PyNone)
    as (q1 & Hq1 & Hq1n).
  { unfold store1. destruct queryset; try by eexists.
    eexists. split; [|shelve].
    apply mro_lookup_setattr_self; [done|]. by eapply mro_lookup_Some_class.
    Unshelve. done. }
  assert (∃ q2, mro_lookup store2 view_set "queryset" = Some q2 ∧ q2 ≠ PyNone)
    as (q2 & Hq2 & Hq2n).
  { unfold store2. destruct serializer_class; try by eexists.
    destruct (mro_lookup_setattr store1 view_set "serializer_class"
                (ModelSerializerClass (__name__ model +:+ "ModelSerializer") model)
                view_set "queryset" Hwf1) as [Heq | [Hname _]]; [|done].
    exists q1. by rewrite Heq. }
  assert (∃ s2, mro_lookup store2 view_set "serializer_class" = Some s2 ∧ s2 ≠ PyNone)
    as (s2 & Hs2 & Hs2n).
  { unfold store2. destruct serializer_class; try by eexists.
    eexists. split; [|shelve].
    apply mro_lookup_setattr_self; [done|]. by eapply mro_lookup_Some_class.
    Unshelve. done. }
  by exists q2, s2.
Qed.

Lemma get_urls_loop_keeps items store router cls :
  store_wf store → class_served store cls →
  store_wf (get_urls_loop router_register items store router).2 ∧
  class_served (get_urls_loop router_register items store router).2 cls.
Proof.
  revert store router. induction items as [|[model view_set] rest IH];
    intros store router Hwf Hcls; simpl; [done|].
  destruct (getattr store view_set "queryset") as [q|e] eqn:Hq; [|done].
  destruct (getattr _ view_set "serializer_class") as [s|e] eqn:Hs.
  - destruct (get_urls_item store model view_set q s Hwf Hq Hs) as (Hwf2 & _ & Hkeep).
    destruct (router_register _ _ _ _ _) as [router'|e]; simpl; [|by auto].
    apply IH; by auto.
  - simpl. destruct q; try done.
    split; [by apply store_wf_setattr|by apply class_served_setattr].
Qed.

Lemma get_urls_loop_serves items store store' router router' :
  store_wf store →
  get_urls_loop router_register items store router = (Ok router', store') →
  ∀ model cls, (model, cls) ∈ items → class_served store' cls.
Proof.
  revert store router. induction items as [|[model view_set] rest IH];
    intros store router Hwf Hrun m cls Hin; [by apply elem_of_nil in Hin|].
  simpl in Hrun.
  destruct (getattr store view_set "queryset") as [q|e] eqn:Hq; [|done].
  destruct (getattr _ view_set "serializer_class") as [s|e] eqn:Hs; [|done].
  destruct (get_urls_item store model view_set q s Hwf Hq Hs) as (Hwf2 & Hserved & _).
  destruct (router_register _ _ _ _ _) as [router1|e]; [|done].
  apply elem_of_cons in Hin as [[= -> ->] | Hin].
  - pose proof (get_urls_loop_keeps rest _ router1 view_set Hwf2 Hserved) as [_ Hk].
    by rewrite Hrun in Hk.
  - by apply (IH _ _ Hwf2 Hrun m cls).
Qed.

(** On a store where every listed class is served the loop assigns
    nothing. *)
Lemma get_urls_loop_noop items store router :
  (∀ model cls, (model, cls) ∈ items → class_served store cls) →
  (get_urls_loop router_register items store router).2 = store.
Proof.
  revert router. induction items as [|[model view_set] rest IH];
    intros router Hall; simpl; [done|].
  destruct (Hall model view_set) as (q & s & Hq & Hqn & Hs & Hsn); [by left|].
  unfold getattr. rewrite Hq.
  replace (match q with
           | PyNone => setattr store view_set "queryset" (AllObjects model)
           | _ => store
           end) with store by by destruct q.
  rewrite Hs.
  replace (match s with
           | PyNone =>
               setattr store view_set "serializer_class"
                 (ModelSerializerClass (__name__ model +:+ "ModelSerializer") model)
           | _ => store
           end) with store by by destruct s.
  destruct (router_register _ _ _ _ _) as [router'|e]; simpl; [|done].
  apply IH. intros m cls Hin. apply (Hall m cls). by right.
Qed.

Lemma od_get_elem_of {A} (d : list (Model * A)) (k : Model) (v : A) :
  od_get d k = Some v → (k, v) ∈ d.
Proof.
  induction d as [|[k' v'] rest IH]; simpl; [done|].
  case_decide as Hk; [intros [= ->]; subst; by left|].
  intros Hget. right. by apply IH.
Qed.

End get_urls_facts.


(** X24. When [get_urls] returns on a sound class store, the registry is as
    before and every registered handler class resolves [queryset] and
    [serializer_class] to something other than [None], whatever router is
    used. *)
Theorem get_urls_serves_every_handler {Router : Type} (DefaultRouter : Router)
    (router_register :
       Router → list Objects.ClassObj → string → nat → option string → result Router)
    (router_urls : Router → list string)
    (self self' : Objects.RestFulAdminSite) (urls : list string) :
  Objects.store_wf (Objects.classes self) →
  Objects.get_urls DefaultRouter router_register router_urls self = (Ok urls, self') →
  Objects._registry self' = Objects._registry self ∧
  ∀ model cls, Objects.od_get (Objects._registry self') model = Some cls →
               class_served (Objects.classes self') cls.
Proof.
  intros Hwf. unfold Objects.get_urls.
  destruct (Objects.get_urls_loop _ _ _ _) as [[router|e] store'] eqn:Hrun; [|done].
  intros [= _ <-]. simpl. split; [done|].
  intros model cls Hget.
  apply (get_urls_loop_serves router_register _ _ _ _ _ Hwf Hrun model cls).
  by apply od_get_elem_of.
Qed.

Lemma get_urls_serves_every_handler_witness :
  ∃ urls self',
    Objects.get_urls [] Objects.recording_register recording_urls demo_site
      = (Ok urls, self') ∧
    urls = ["user"; "testmodel"] ∧
    class_served (Objects.classes self') 2.
Proof.
  destruct (get_urls_serves_every_handler [] Objects.recording_register recording_urls
              demo_site
              (Objects.get_urls [] Objects.recording_register recording_urls
                 demo_site).2
              ["user"; "testmodel"]) as [_ Hserved].
  - vm_compute. repeat split; lia.
  - vm_compute. reflexivity.
  - eexists _, _. split; [vm_compute; reflexivity|]. split; [reflexivity|].
    apply (Hserved TestModel). vm_compute. reflexivity.
Defined.

(** X25. [get_urls] assigns at most once: after a call that returned on a
    sound class store, a further call, with any router and whether it
    returns or raises, leaves the site exactly as it is. *)
Theorem get_urls_assigns_once {Router Router' : Type} (DefaultRouter : Router)
    (router_register :
       Router → list Objects.ClassObj → string → nat → option string → result Router)
    (router_urls : Router → list string)
    (DefaultRouter' : Router')
    (router_register' :
       Router' → list Objects.ClassObj → string → nat → option string → result Router')
    (router_urls' : Router' → list string)
    (self self' : Objects.RestFulAdminSite) (urls : list string) :
  Objects.store_wf (Objects.classes self) →
  Objects.get_urls DefaultRouter router_register router_urls self = (Ok urls, self') →
  (Objects.get_urls DefaultRouter' router_register' router_urls' self').2 = self'.
Proof.
  intros Hwf. unfold Objects.get_urls.
  destruct (Objects.get_urls_loop router_register _ _ _) as [[router|e] store'] eqn:Hrun;
    [|done].
  intros [= _ <-]. simpl.
  pose proof (get_urls_loop_noop router_register' (Objects._registry self) store'
                DefaultRouter') as Hnoop.
  destruct (Objects.get_urls_loop router_register' _ _ _) as [r2 store2].
  simpl in *. rewrite Hnoop; [done|].
  intros model cls Hin.
  exact (get_urls_loop_serves router_register _ _ _ _ _ Hwf Hrun model cls Hin).
Qed.

Lemma get_urls_assigns_once_witness :
  let served := (Objects.get_urls [] Objects.recording_register recording_urls
                   demo_site).2 in
  (Objects.get_urls [] Objects.recording_register recording_urls served).2 = served.
Proof.
  intros served.
  apply (get_urls_assigns_once [] Objects.recording_register recording_urls
           [] Objects.recording_register recording_urls demo_site served
           ["user"; "testmodel"]).
  - vm_compute. repeat split; lia.
  - vm_compute. reflexivity.
Defined.

(** ** Registering on the class store *)

Section register_objects.
Import Objects.
Implicit Types (l : RegisterLocals) (xs : list Model).

Lemma od_set_fresh {A} (d : list (Model * A)) (k : Model) (v : A) :
  od_get d k = None → od_set d k v = d ++ [(k, v)].
Proof.
  induction d as [|[k' v'] rest IH]; simpl; [done|].
  case_decide; [done|]. intros Hget. by rewrite IH.
Qed.

Lemma od_get_app_fresh {A} (d : list (Model * A)) (k k' : Model) (v : A) :
  k ≠ k' → od_get (d ++ [(k, v)]) k' = od_get d k'.
Proof.
  intros Hne. induction d as [|[k0 v0] rest IH]; simpl.
  - by rewrite decide_False.
  - by case_decide.
Qed.

Lemma od_get_imap {A} (f : nat → A) xs (i : nat) (m : Model) :
  NoDup xs → xs !! i = Some m →
  od_get (imap (λ j x, (x, f j)) xs) m = Some (f i).
Proof.
  revert f i. induction xs as [|x rest IH]; intros f i Hnd Hi; [done|].
  apply NoDup_cons in Hnd as [Hx Hnd]. simpl.
  destruct i as [|i]; simpl in Hi.
  - injection Hi as ->. by rewrite decide_True.
  - rewrite decide_False.
    + by apply (IH (f ∘ S) i).
    + intros ->. apply Hx. by eapply list_elem_of_lookup_2.
Qed.

(** What the loop leaves on the store when every model is concrete, new and
    listed once: the classes it makes sit on top of the store, each with the
    one before it as base, the first with the class the loop started from,
    and none has in its own dictionary a name the options do not give. *)
Lemma register_loop_objects xs l :
  NoDup xs →
  (∀ m, m ∈ xs → abstract (_meta m) = false ∧ od_get (registry l) m = None) →
  store_wf (store l) → (view_class l < length (store l))%nat →
  ∃ l', register_loop xs l = (Ok (), l') ∧
        registry l' = registry l ++ imap (λ i m, (m, (length (store l) + i)%nat)) xs ∧
        store_wf (store l') ∧
        (∀ cls, (cls < length (store l))%nat →
                class_at (store l') cls = class_at (store l) cls) ∧
        ∀ name, options l !! name = None → name ≠ "__doc__" →
          (∀ i, (i < length xs)%nat →
                chain_lacks (store l') name (length (store l)) (length (store l) + i)) ∧
          (xs ≠ [] →
           ∃ c, class_at (store l') (length (store l)) = Some c ∧
                cls_dict c !! name = None ∧ cls_base c = Some (view_class l)).
Proof.
  revert l. induction xs as [|m rest IH]; intros l Hnd Hfresh Hwf Hvc.
  - exists l. split; [done|]. split; [by rewrite app_nil_r|]. split; [done|].
    split; [done|]. intros name _ _. split; [simpl; lia|done].
  - apply NoDup_cons in Hnd as [Hm Hnd].
    destruct (Hfresh m) as [Habs Hnew]; [by left|].
    simpl. rewrite Habs, Hnew.
    rewrite bool_decide_eq_false_2 by by intros [? [=]].
    set (options' := <["__doc__" := PyStr (generate_docs m)]> (options l)).
    set (made := {| cls_name := __name__ m +:+ "Admin";
                    cls_base := Some (view_class l);
                    cls_dict := Obj <$> options' |}).
    set (l1 := {| store := made :: store l;
                  registry := od_set (registry l) m (length (store l));
                  options := options';
                  view_class := length (store l) |}).
    destruct (IH l1 Hnd) as (l' & Hrun & Hreg & Hwf' & Hold & Hnames).
    { intros m' Hm'. destruct (Hfresh m') as [? Hget]; [by right|]. split; [done|].
      simpl. rewrite od_set_fresh by done. rewrite od_get_app_fresh; [done|].
      by intros ->. }
    { simpl. by split. }
    { simpl. lia. }
    exists l'. split; [done|]. simpl in *.
    split.
    { rewrite Hreg, od_set_fresh by done. rewrite <-app_assoc. simpl.
      rewrite Nat.add_0_r. do 2 f_equal.
      apply imap_ext. intros i x _. unfold compose. simpl. f_equal. lia. }
    split; [done|].
    assert (class_at (store l') (length (store l)) = Some made) as Hmade.
    { rewrite Hold by lia. apply class_at_cons_new. }
    split.
    { intros cls Hcls. rewrite Hold by lia. by apply class_at_cons_old. }
    intros name Hname Hdoc.
    assert (options' !! name = None) as Hname'.
    { unfold options'. by rewrite lookup_insert_ne. }
    destruct (Hnames name Hname' Hdoc) as [Hchain Hfirst].
    assert (cls_dict made !! name = None) as Hlack.
    { simpl. by rewrite lookup_fmap, Hname'. }
    split.
    + intros [|i] Hi.
      * rewrite Nat.add_0_r. apply chain_root.
      * replace (length (store l) + S i)%nat with (S (length (store l)) + i)%nat by lia.
        apply (chain_lacks_trans _ _ _ (S (length (store l)))).
        { apply Hchain. lia. }
        destruct Hfirst as (c & Hc & Hcd & Hcb).
        { intros ->. simpl in Hi. lia. }
        apply (chain_step _ _ _ (S (length (store l))) (length (store l)) c);
          [lia|done|done|done|apply chain_root].
    + intros _. by exists made.
Qed.

End register_objects.

Section get_urls_inheritance.
Import Objects.
Context {Router : Type}.
Context (router_register :
           Router → list ClassObj → string → nat → option string → result Router).

(** The first class of a chain gets the attributes; every class that
    reaches it without a [queryset] and a [serializer_class] of its own
    resolves to the same two values, and the loop assigns nothing more. *)
Lemma get_urls_loop_first_serves_chain (store : list ClassObj) (root : nat)
    (first : Model) (items : list (Model * nat)) (router : Router) :
  store_wf store →
  mro_lookup store root "queryset" = Some PyNone →
  mro_lookup store root "serializer_class" = Some PyNone →
  (∀ model cls, (model, cls) ∈ items →
     chain_lacks store "queryset" root cls ∧
     chain_lacks store "serializer_class" root cls) →
  let store2 :=
    setattr (setattr store root "queryset" (AllObjects first)) root "serializer_class"
      (ModelSerializerClass (__name__ first +:+ "ModelSerializer") first) in
  (get_urls_loop router_register ((first, root) :: items) store router).2 = store2 ∧
  ∀ cls, chain_lacks store "queryset" root cls →
         chain_lacks store "serializer_class" root cls →
         mro_lookup store2 cls "queryset" = Some (AllObjects first) ∧
         mro_lookup store2 cls "serializer_class"
           = Some (ModelSerializerClass (__name__ first +:+ "ModelSerializer") first).
Proof.
  intros Hwf Hq Hs Hchains store2.
  set (store1 := setattr store root "queryset" (AllObjects first)) in *.
  assert (store_wf store1) as Hwf1 by by apply store_wf_setattr.
  assert (store_wf store2) as Hwf2 by by apply store_wf_setattr.
  assert (is_Some (class_at store root)) as Hroot
    by by eapply mro_lookup_Some_class.
  assert (mro_lookup store1 root "queryset" = Some (AllObjects first)) as Hq1
    by by apply mro_lookup_setattr_self.
  assert (mro_lookup store1 root "serializer_class" = Some PyNone) as Hs1.
  { destruct (mro_lookup_setattr store root "queryset" (AllObjects first) root
                "serializer_class" Hwf) as [Heq | [Hname _]]; [|done].
    by rewrite <-Hs. }
  assert (is_Some (class_at store1 root)) as Hroot1
    by by eapply mro_lookup_Some_class.
  assert (mro_lookup store2 root "serializer_class"
          = Some (ModelSerializerClass (__name__ first +:+ "ModelSerializer") first))
    as Hs2 by by apply mro_lookup_setattr_self.
  assert (mro_lookup store2 root "queryset" = Some (AllObjects first)) as Hq2.
  { destruct (mro_lookup_setattr store1 root "serializer_class"
                (ModelSerializerClass (__name__ first +:+ "ModelSerializer") first)
                root "queryset" Hwf1) as [Heq | [Hname _]]; [|done].
    by rewrite <-Hq1. }
  assert (∀ cls, chain_lacks store "queryset" root cls →
                 chain_lacks store "serializer_class" root cls →
                 mro_lookup store2 cls "queryset" = Some (AllObjects first) ∧
                 mro_lookup store2 cls "serializer_class"
                   = Some (ModelSerializerClass (__name__ first +:+ "ModelSerializer")
                             first)) as Hall.
  { intros cls Hcq Hcs. split.
    - rewrite (chain_lacks_lookup store2 "queryset" root cls Hwf2); [done|].
      by do 2 apply chain_lacks_setattr_root.
    - rewrite (chain_lacks_lookup store2 "serializer_class" root cls Hwf2); [done|].
      by do 2 apply chain_lacks_setattr_root. }
  split; [|exact Hall].
  simpl. unfold getattr. rewrite Hq. fold store1. rewrite Hs1. fold store2.
  destruct (router_register _ _ _ _ _) as [router'|e]; simpl; [|done].
  apply get_urls_loop_noop. intros model cls Hin.
  destruct (Hchains model cls Hin) as [Hcq Hcs].
  destruct (Hall cls Hcq Hcs) as [Hq' Hs'].
  eexists _, _. by rewrite Hq', Hs'.
Qed.

End get_urls_inheritance.

(** X26. Models registered by one call share one queryset and one
    serializer.  On a site with an empty registry, when the class the call
    starts from resolves [queryset] and [serializer_class] to [None] and the
    options give neither, registering a sequence of concrete models and then
    calling [get_urls] leaves the handler class of every model of the
    sequence resolving [queryset] to the records of the first model and
    [serializer_class] to the serializer of the first model, with any router
    and whether [get_urls] returns or raises. *)
Theorem queryset_shared_along_one_call {Router : Type} (DefaultRouter : Router)
    (router_register :
       Router → list Objects.ClassObj → string → nat → option string → result Router)
    (router_urls : Router → list string)
    (self : Objects.RestFulAdminSite) (supplied : option nat)
    (opts : gmap string PyObj) (first : Model) (rest : list Model) :
  Objects._registry self = [] →
  Objects.store_wf (Objects.classes self) →
  Objects.getattr (Objects.classes self)
    (default (Objects.default_view_class self) supplied) "queryset"
    = Ok Objects.PyNone →
  Objects.getattr (Objects.classes self)
    (default (Objects.default_view_class self) supplied) "serializer_class"
    = Ok Objects.PyNone →
  opts !! "queryset" = None → opts !! "serializer_class" = None →
  NoDup (first :: rest) →
  (∀ m, m ∈ first :: rest → abstract (_meta m) = false) →
  let registered :=
    (Objects.register self (Iterable (first :: rest)) supplied opts).2 in
  let served :=
    (Objects.get_urls DefaultRouter router_register router_urls registered).2 in
  ∀ m, m ∈ first :: rest →
    ∃ cls, Objects.od_get (Objects._registry served) m = Some cls ∧
           Objects.getattr (Objects.classes served) cls "queryset"
             = Ok (Objects.AllObjects first) ∧
           Objects.getattr (Objects.classes served) cls "serializer_class"
             = Ok (Objects.ModelSerializerClass
                     (__name__ first +:+ "ModelSerializer") first).
Proof.
  intros Hreg0 Hwf Hq0 Hs0 Hoq Hos Hnd Hconc registered served m Hm.
  set (base := default (Objects.default_view_class self) supplied) in *.
  unfold Objects.getattr in Hq0, Hs0.
  destruct (Objects.mro_lookup (Objects.classes self) base "queryset")
    as [q0|] eqn:Hq0'; [|done]. injection Hq0 as ->.
  destruct (Objects.mro_lookup (Objects.classes self) base "serializer_class")
    as [s0|] eqn:Hs0'; [|done]. injection Hs0 as ->.
  assert (base < length (Objects.classes self))%nat as Hbase.
  { destruct (mro_lookup_Some_class _ _ _ _ Hwf Hq0') as [c Hc].
    by eapply class_at_lt. }
  set (l0 := {| Objects.store := Objects.classes self;
                Objects.registry := Objects._registry self;
                Objects.options := opts;
                Objects.view_class := base |}).
  destruct (register_loop_objects (first :: rest) l0 Hnd)
    as (l' & Hrun & Hreg & Hwf' & Hold & Hnames); [|done|done|].
  { intros m' Hm'. split; [by apply Hconc|]. simpl. by rewrite Hreg0. }
  simpl in Hreg, Hold, Hnames. rewrite Hreg0 in Hreg. simpl in Hreg.
  set (L := length (Objects.classes self)) in *.
  destruct (Hnames "queryset" Hoq) as [Hchq Hfq]; [done|].
  destruct (Hnames "serializer_class" Hos) as [Hchs Hfs]; [done|].
  assert (∀ name, Objects.mro_lookup (Objects.store l') base name
                  = Objects.mro_lookup (Objects.classes self) base name) as Hbase_same.
  { intros name. apply mro_lookup_ext; [done|done|].
    intros id Hid. apply Hold. lia. }
  assert (Objects.mro_lookup (Objects.store l') L "queryset" = Some Objects.PyNone)
    as HqL.
  { rewrite mro_lookup_step by done.
    destruct Hfq as (c & -> & -> & ->); [done|]. by rewrite Hbase_same. }
  assert (Objects.mro_lookup (Objects.store l') L "serializer_class"
          = Some Objects.PyNone) as HsL.
  { rewrite mro_lookup_step by done.
    destruct Hfs as (c & -> & -> & ->); [done|]. by rewrite Hbase_same. }
  assert (Objects.classes registered = Objects.store l' ∧
          Objects._registry registered = Objects.registry l') as [Hcls Hrg].
  { unfold registered, Objects.register.
    change (Objects.register_loop _ _) with (Objects.register_loop (first :: rest) l0).
    by rewrite Hrun. }
  destruct (get_urls_loop_first_serves_chain router_register (Objects.store l') L first
              (imap (λ i x, (x, (L + S i)%nat)) rest) DefaultRouter Hwf' HqL HsL)
    as [Hfinal Hres].
  { intros model cls Hin. apply list_elem_of_lookup in Hin as [i Hi].
    rewrite list_lookup_imap in Hi.
    destruct (rest !! i) as [x|] eqn:Hx; [|done]. injection Hi as <- <-.
    apply lookup_lt_Some in Hx.
    split; [apply Hchq|apply Hchs]; simpl; lia. }
  assert (Objects.registry l' = (first, L) :: imap (λ i x, (x, (L + S i)%nat)) rest)
    as Hitems.
  { rewrite Hreg. simpl. rewrite Nat.add_0_r. f_equal. }
  assert (Objects.classes served
          = Objects.setattr
              (Objects.setattr (Objects.store l') L "queryset" (Objects.AllObjects first))
              L "serializer_class"
              (Objects.ModelSerializerClass (__name__ first +:+ "ModelSerializer") first)
          ∧ Objects._registry served = Objects.registry l') as [Hsc Hsr].
  { unfold served, Objects.get_urls. rewrite Hcls, Hrg, Hitems.
    destruct (Objects.get_urls_loop _ _ _ _) as [r store'] eqn:Hloop.
    simpl in Hfinal. simpl. by rewrite Hfinal. }
  apply list_elem_of_lookup in Hm as [i Hi].
  exists (L + i)%nat. rewrite Hsr, Hsc, Hreg.
  split; [exact (od_get_imap (λ j, (L + j)%nat) (first :: rest) i m Hnd Hi)|].
  apply lookup_lt_Some in Hi as Hlt.
  destruct (Hres (L + i)%nat) as [Hq' Hs']; [by apply Hchq|by apply Hchs|].
  unfold Objects.getattr. by rewrite Hq', Hs'.
Qed.

Lemma queryset_shared_along_one_call_witness :
  let registered :=
    (Objects.register Objects.site (Iterable [TestModel; User_model]) None ∅).2 in
  let served :=
    (Objects.get_urls [] Objects.recording_register recording_urls registered).2 in
  ∃ cls, Objects.od_get (Objects._registry served) User_model = Some cls ∧
         Objects.getattr (Objects.classes served) cls "queryset"
           = Ok (Objects.AllObjects TestModel).
Proof.
  intros registered served.
  destruct (queryset_shared_along_one_call [] Objects.recording_register recording_urls
              Objects.site None ∅ TestModel [User_model])
    with (m := User_model) as (cls & Hget & Hq & _).
  - reflexivity.
  - vm_compute. done.
  - vm_compute. reflexivity.
  - vm_compute. reflexivity.
  - reflexivity.
  - reflexivity.
  - apply NoDup_cons. split; [|apply NoDup_singleton].
    intros Hin. apply list_elem_of_singleton in Hin. discriminate Hin.
  - intros m Hm. apply elem_of_cons in Hm as [-> | Hm]; [reflexivity|].
    apply list_elem_of_singleton in Hm as ->. reflexivity.
  - right. by left.
  - exists cls. split; [exact Hget|exact Hq].
Defined.

(** X27. A class decorated with [register] is handed back unchanged, and
    when the registration returns, the handler class stored for every model
    the decorator was given is a proper subclass of the decorated class. *)
Theorem decorated_class_is_ancestor (self self' : RestFulAdminSite)
    (models : list Model) (opts : gmap string PyObj) (decorated returned : ViewClass) :
  register_decorator self models opts decorated = (Ok returned, self') →
  returned = decorated ∧
  ∀ m, m ∈ models →
       ∃ cls, _registry self' !! m = Some cls ∧ subclass_of decorated cls.
Proof.
  unfold register_decorator, register. simpl.
  destruct (register_loop models (register_locals self (Some decorated) opts))
    as [[[]|e] l'] eqn:Hrun; [|done].
  intros [= <- <-]. split; [done|]. simpl.
  destruct (register_loop_ok_inv _ _ _ Hrun) as [Hnd Hfresh].
  destruct (register_loop_chain models (register_locals self (Some decorated) opts)
              Hnd Hfresh) as (l2 & Hrun2 & _ & Hin & _).
  rewrite Hrun in Hrun2. injection Hrun2 as <-.
  assert (∀ (i : nat) m, models !! i = Some m →
            ∃ cls, registry l' !! m = Some cls ∧ subclass_of decorated cls) as Hall.
  { induction i as [|j IH]; intros m Hi.
    - destruct (Hin 0%nat m Hi) as (base & Hcls & ->).
      eexists. split; [exact Hcls|]. apply subclass_direct.
    - destruct (Hin (S j) m Hi) as (base & Hcls & m' & Hj & Hbase).
      destruct (IH m' Hj) as (cls' & Hcls' & Hsub).
      rewrite Hbase in Hcls'. injection Hcls' as <-.
      eexists. split; [exact Hcls|]. by apply subclass_step. }
  intros m Hm. apply list_elem_of_lookup in Hm as [i Hi]. by apply (Hall i).
Qed.

Lemma decorated_class_is_ancestor_witness :
  ∃ cls, _registry (register_decorator site [TestModel; User_model] ∅
                      (Class "TestAdmin")).2 !! User_model = Some cls ∧
         subclass_of (Class "TestAdmin") cls.
Proof.
  refine (proj2 (decorated_class_is_ancestor site _ [TestModel; User_model] ∅
                   (Class "TestAdmin") (Class "TestAdmin") _) User_model _).
  - vm_compute. reflexivity.
  - right. by left.
Defined.
